(** * VoiceTranslation: the view state of [App.tsx] and its event handlers

    A shallow embedding of [src/App.tsx]: the twelve [useState] slots, the
    recognition listeners, the two translate operations, the speech output
    operation and the reactive effects, written as state-passing programs
    in a small monad that threads the application state, records the calls
    made on the platform and propagates JavaScript exceptions. *)

From Stdlib Require Import List NArith Bool String Ascii Arith Lia QArith.
From ExtLib Require Import Structures.Monad Structures.MonadExc.
Import ListNotations.
Import MonadNotation.
Local Open Scope monad_scope.
Local Open Scope N_scope.

(** ** JavaScript strings

    A JavaScript string is a sequence of UTF-16 code units. *)

Definition JsString : Type := list N.

(** An ASCII literal as a JavaScript string. *)
Definition js (s : string) : JsString :=
  List.map N_of_ascii (list_ascii_of_string s).

Fixpoint jseqb (a b : JsString) : bool :=
  match a, b with
  | [], [] => true
  | x :: a', y :: b' => (x =? y) && jseqb a' b'
  | _, _ => false
  end.

(** [if (s)]: a string is truthy when it is not empty. *)
Definition truthy (s : JsString) : bool :=
  match s with
  | [] => false
  | _ :: _ => true
  end.

(** The code units [String.prototype.trim] strips: ECMAScript WhiteSpace
    (TAB, VT, FF, SP, NBSP, ZWNBSP and the Unicode space separators) and
    LineTerminator (LF, CR, LS, PS). *)
Definition isWhiteSpace (c : N) : bool :=
  (c =? 0x09) || (c =? 0x0B) || (c =? 0x0C) || (c =? 0x20) || (c =? 0xA0)
  || (c =? 0x1680) || ((0x2000 <=? c) && (c <=? 0x200A))
  || (c =? 0x202F) || (c =? 0x205F) || (c =? 0x3000) || (c =? 0xFEFF)
  || (c =? 0x0A) || (c =? 0x0D) || (c =? 0x2028) || (c =? 0x2029).

Fixpoint trimStart (s : JsString) : JsString :=
  match s with
  | [] => []
  | c :: s' => if isWhiteSpace c then trimStart s' else s
  end.

Definition trimEnd (s : JsString) : JsString :=
  rev (trimStart (rev s)).

Definition trim (s : JsString) : JsString :=
  trimEnd (trimStart s).

(** Empty or whitespace-only text. *)
Definition blank (s : JsString) : bool :=
  forallb isWhiteSpace s.

(** ** [encodeURIComponent]

    ECMAScript [Encode] with the unreserved set of [encodeURIComponent]:
    letters, digits and [-_.!~*'()] are kept, every other code point is
    written as the percent-escaped octets of its UTF-8 encoding, and an
    unpaired surrogate raises [URIError] (here [None]). *)

Definition uriUnreserved (c : N) : bool :=
  ((0x41 <=? c) && (c <=? 0x5A)) || ((0x61 <=? c) && (c <=? 0x7A))
  || ((0x30 <=? c) && (c <=? 0x39))
  || (c =? 0x2D) || (c =? 0x5F) || (c =? 0x2E) || (c =? 0x21) || (c =? 0x7E)
  || (c =? 0x2A) || (c =? 0x27) || (c =? 0x28) || (c =? 0x29).

Definition isLeadSurrogate (c : N) : bool := (0xD800 <=? c) && (c <=? 0xDBFF).
Definition isTrailSurrogate (c : N) : bool := (0xDC00 <=? c) && (c <=? 0xDFFF).

Definition utf8 (cp : N) : list N :=
  if cp <? 0x80 then [cp]
  else if cp <? 0x800 then
    [N.lor 0xC0 (N.shiftr cp 6); N.lor 0x80 (N.land cp 0x3F)]
  else if cp <? 0x10000 then
    [N.lor 0xE0 (N.shiftr cp 12);
     N.lor 0x80 (N.land (N.shiftr cp 6) 0x3F);
     N.lor 0x80 (N.land cp 0x3F)]
  else
    [N.lor 0xF0 (N.shiftr cp 18);
     N.lor 0x80 (N.land (N.shiftr cp 12) 0x3F);
     N.lor 0x80 (N.land (N.shiftr cp 6) 0x3F);
     N.lor 0x80 (N.land cp 0x3F)].

Definition hexDigit (d : N) : N :=
  if d <? 10 then 0x30 + d else 0x37 + d.

Definition percentEscape (octet : N) : JsString :=
  [0x25; hexDigit (N.shiftr octet 4); hexDigit (N.land octet 0xF)].

Definition escapeCodePoint (cp : N) : JsString :=
  flat_map percentEscape (utf8 cp).

Fixpoint encodeURIComponent (s : JsString) : option JsString :=
  match s with
  | [] => Some []
  | c :: rest =>
      if uriUnreserved c then option_map (cons c) (encodeURIComponent rest)
      else if isLeadSurrogate c then
        match rest with
        | d :: rest' =>
            if isTrailSurrogate d then
              option_map
                (app (escapeCodePoint
                        ((c - 0xD800) * 0x400 + (d - 0xDC00) + 0x10000)))
                (encodeURIComponent rest')
            else None
        | [] => None
        end
      else if isTrailSurrogate c then None
      else option_map (app (escapeCodePoint c)) (encodeURIComponent rest)
  end.

(** ** The language table *)

Definition languages : list (JsString * JsString) :=
  [ (js "en", js "English"); (js "th", js "Thai"); (js "es", js "Spanish");
    (js "fr", js "French"); (js "de", js "German"); (js "it", js "Italian");
    (js "pt", js "Portuguese"); (js "ru", js "Russian");
    (js "ja", js "Japanese"); (js "ko", js "Korean"); (js "zh", js "Chinese");
    (js "ar", js "Arabic"); (js "hi", js "Hindi"); (js "vi", js "Vietnamese");
    (js "nl", js "Dutch"); (js "sv", js "Swedish"); (js "da", js "Danish");
    (js "no", js "Norwegian"); (js "fi", js "Finnish"); (js "pl", js "Polish");
    (js "tr", js "Turkish") ].

Definition speechLanguageCodes : list (JsString * JsString) :=
  [ (js "en", js "en-US"); (js "th", js "th-TH"); (js "es", js "es-ES");
    (js "fr", js "fr-FR"); (js "de", js "de-DE"); (js "it", js "it-IT");
    (js "pt", js "pt-PT"); (js "ru", js "ru-RU"); (js "ja", js "ja-JP");
    (js "ko", js "ko-KR"); (js "zh", js "zh-CN"); (js "ar", js "ar-SA");
    (js "hi", js "hi-IN"); (js "vi", js "vi-VN"); (js "nl", js "nl-NL");
    (js "sv", js "sv-SE"); (js "da", js "da-DK"); (js "no", js "no-NO");
    (js "fi", js "fi-FI"); (js "pl", js "pl-PL"); (js "tr", js "tr-TR") ].

(** [speechLanguageCodes[code] || fallback] *)
Definition speechLocale (code fallback : JsString) : JsString :=
  match find (fun entry => jseqb (fst entry) code) speechLanguageCodes with
  | Some entry => if truthy (snd entry) then snd entry else fallback
  | None => fallback
  end.

(** ** View state: the twelve [useState] slots of [App] *)

Record ViewState : Type := mkView {
  isRecording : bool;
  originalText : JsString;
  translatedText : JsString;
  agentReply : JsString;
  agentReplyTranslated : JsString;
  inputLanguage : JsString;
  outputLanguage : JsString;
  isTranslating : bool;
  isTranslatingReply : bool;
  error : JsString;
  interimText : JsString;
  isSpeaking : bool
}.

Definition initialView : ViewState :=
  {| isRecording := false; originalText := js ""; translatedText := js "";
     agentReply := js ""; agentReplyTranslated := js "";
     inputLanguage := js "th"; outputLanguage := js "en";
     isTranslating := false; isTranslatingReply := false;
     error := js ""; interimText := js ""; isSpeaking := false |}.

Definition withIsRecording (b : bool) (v : ViewState) : ViewState :=
  mkView b (originalText v) (translatedText v) (agentReply v)
    (agentReplyTranslated v) (inputLanguage v) (outputLanguage v)
    (isTranslating v) (isTranslatingReply v) (error v) (interimText v)
    (isSpeaking v).

Definition withOriginalText (s : JsString) (v : ViewState) : ViewState :=
  mkView (isRecording v) s (translatedText v) (agentReply v)
    (agentReplyTranslated v) (inputLanguage v) (outputLanguage v)
    (isTranslating v) (isTranslatingReply v) (error v) (interimText v)
    (isSpeaking v).

Definition withTranslatedText (s : JsString) (v : ViewState) : ViewState :=
  mkView (isRecording v) (originalText v) s (agentReply v)
    (agentReplyTranslated v) (inputLanguage v) (outputLanguage v)
    (isTranslating v) (isTranslatingReply v) (error v) (interimText v)
    (isSpeaking v).

Definition withAgentReply (s : JsString) (v : ViewState) : ViewState :=
  mkView (isRecording v) (originalText v) (translatedText v) s
    (agentReplyTranslated v) (inputLanguage v) (outputLanguage v)
    (isTranslating v) (isTranslatingReply v) (error v) (interimText v)
    (isSpeaking v).

Definition withAgentReplyTranslated (s : JsString) (v : ViewState) : ViewState :=
  mkView (isRecording v) (originalText v) (translatedText v) (agentReply v)
    s (inputLanguage v) (outputLanguage v)
    (isTranslating v) (isTranslatingReply v) (error v) (interimText v)
    (isSpeaking v).

Definition withInputLanguage (s : JsString) (v : ViewState) : ViewState :=
  mkView (isRecording v) (originalText v) (translatedText v) (agentReply v)
    (agentReplyTranslated v) s (outputLanguage v)
    (isTranslating v) (isTranslatingReply v) (error v) (interimText v)
    (isSpeaking v).

Definition withOutputLanguage (s : JsString) (v : ViewState) : ViewState :=
  mkView (isRecording v) (originalText v) (translatedText v) (agentReply v)
    (agentReplyTranslated v) (inputLanguage v) s
    (isTranslating v) (isTranslatingReply v) (error v) (interimText v)
    (isSpeaking v).

Definition withIsTranslating (b : bool) (v : ViewState) : ViewState :=
  mkView (isRecording v) (originalText v) (translatedText v) (agentReply v)
    (agentReplyTranslated v) (inputLanguage v) (outputLanguage v)
    b (isTranslatingReply v) (error v) (interimText v) (isSpeaking v).

Definition withIsTranslatingReply (b : bool) (v : ViewState) : ViewState :=
  mkView (isRecording v) (originalText v) (translatedText v) (agentReply v)
    (agentReplyTranslated v) (inputLanguage v) (outputLanguage v)
    (isTranslating v) b (error v) (interimText v) (isSpeaking v).

Definition withError (s : JsString) (v : ViewState) : ViewState :=
  mkView (isRecording v) (originalText v) (translatedText v) (agentReply v)
    (agentReplyTranslated v) (inputLanguage v) (outputLanguage v)
    (isTranslating v) (isTranslatingReply v) s (interimText v) (isSpeaking v).

Definition withInterimText (s : JsString) (v : ViewState) : ViewState :=
  mkView (isRecording v) (originalText v) (translatedText v) (agentReply v)
    (agentReplyTranslated v) (inputLanguage v) (outputLanguage v)
    (isTranslating v) (isTranslatingReply v) (error v) s (isSpeaking v).

Definition withIsSpeaking (b : bool) (v : ViewState) : ViewState :=
  mkView (isRecording v) (originalText v) (translatedText v) (agentReply v)
    (agentReplyTranslated v) (inputLanguage v) (outputLanguage v)
    (isTranslating v) (isTranslatingReply v) (error v) (interimText v) b.

(** ** The platform as the component sees it *)

(** A property of [window]: absent ([name in window] is false), present
    with a falsy value, or present with a constructor. *)
Inductive WindowProp : Type :=
| Missing
| Undefined
| Constructor.

Definition inWindow (p : WindowProp) : bool :=
  match p with
  | Missing => false
  | _ => true
  end.

(** [a || b] on two window properties. *)
Definition orElse (a b : WindowProp) : WindowProp :=
  match a with
  | Constructor => Constructor
  | _ => b
  end.

(** What the component reads of the browser: the two recognition
    constructors of [window], whether [window] has [speechSynthesis], and
    whether [navigator.clipboard] is defined (it is not in an insecure
    context). *)
Record Window : Type := mkWindow {
  winSpeechRecognition : WindowProp;
  winWebkitSpeechRecognition : WindowProp;
  winSpeechSynthesis : bool;
  navigatorClipboard : bool
}.

Inductive ListenerType : Type :=
| OnResult
| OnError
| OnEnd.

(** The recognition object held by [recognitionRef.current]. *)
Record SpeechRecognition : Type := mkRecognition {
  continuous : bool;
  interimResults : bool;
  lang : JsString;
  listeners : list ListenerType
}.

Definition newSpeechRecognition : SpeechRecognition :=
  {| continuous := false; interimResults := false; lang := js "";
     listeners := [] |}.

Record SpeechRecognitionAlternative : Type := mkAlternative {
  transcript : JsString
}.

(** A recognition result holds at least one alternative; the listener
    reads the first one, [results[i][0]]. *)
Record SpeechRecognitionResult : Type := mkResult {
  item0 : SpeechRecognitionAlternative;
  otherItems : list SpeechRecognitionAlternative;
  isFinal : bool
}.

Record SpeechRecognitionEvent : Type := mkResultEvent {
  results : list SpeechRecognitionResult;
  resultIndex : nat
}.

Record SpeechSynthesisUtterance : Type := mkUtterance {
  utteranceText : JsString;
  utteranceLang : JsString;
  rate : Q;
  pitch : Q
}.

(** The value of the [responseStatus] field of a payload: the service
    sends the number 200 on success and may send a number or a string
    otherwise. *)
Inductive JsValue : Type :=
| JsUndefined
| JsNumber (n : N)
| JsText (s : JsString).

(** [data.responseData], with its [translatedText] field. *)
Record ResponseData : Type := mkResponseData {
  responseTranslatedText : JsString
}.

Record Payload : Type := mkPayload {
  responseStatus : JsValue;
  responseData : option ResponseData
}.

Inductive JsonOutcome : Type :=
| JsonRejected
| JsonResolved (data : Payload).

(** How one request ends: [fetch] rejects (network failure), or resolves
    to a response with its [ok] flag and the outcome of [response.json()].
    The two [await]s of a translate operation are taken together: nothing
    is written between them. *)
Inductive FetchOutcome : Type :=
| FetchRejected
| FetchResolved (ok : bool) (body : JsonOutcome).

(** Calls made on the platform, in program order. *)
Inductive Effect : Type :=
| RecognitionStart
| RecognitionStop
| Fetch (url : JsString)
| ConsoleError (label : JsString)
| SynthCancel
| SynthSpeak (u : SpeechSynthesisUtterance)
| ClipboardWrite (text : JsString).

Inductive Exn : Type :=
| TypeError
| URIError
| NetworkError
| SyntaxError
| JsError (message : JsString).

(** ** Application state and the handler monad *)

(** The view state, the [recognitionRef] cell, the platform the page runs
    on, and the [disabled] attribute the last render gave the record
    button ([disabled={!recognitionRef.current}]). *)
Record World : Type := mkWorld {
  view : ViewState;
  recognitionRef : option SpeechRecognition;
  window : Window;
  recordDisabled : bool
}.

(** The world [w] with view state [v]. *)
Definition setView (v : ViewState) (w : World) : World :=
  mkWorld v (recognitionRef w) (window w) (recordDisabled w).

(** A handler ends normally or throws; either way it leaves a world and
    the calls it made on the platform. *)
Inductive Outcome (A : Type) : Type :=
| Normal (a : A) (w : World) (calls : list Effect)
| Thrown (e : Exn) (w : World) (calls : list Effect).

Arguments Normal {A} a w calls.
Arguments Thrown {A} e w calls.

(** Handlers are programs over the world. *)
Definition M (A : Type) : Type := World -> Outcome A.

(** An outcome preceded by the calls made before it. *)
Definition after {A : Type} (calls : list Effect) (o : Outcome A) : Outcome A :=
  match o with
  | Normal a w calls' => Normal a w (calls ++ calls')
  | Thrown e w calls' => Thrown e w (calls ++ calls')
  end.

Definition mret {A : Type} (a : A) : M A :=
  fun w => Normal a w [].

Definition mbind {A B : Type} (m : M A) (k : A -> M B) : M B :=
  fun w =>
    match m w with
    | Normal a w' calls => after calls (k a w')
    | Thrown e w' calls => Thrown e w' calls
    end.

Definition throw {A : Type} (e : Exn) : M A :=
  fun w => Thrown e w [].

Definition tryCatch {A : Type} (body : M A) (handler : Exn -> M A) : M A :=
  fun w =>
    match body w with
    | Normal a w' calls => Normal a w' calls
    | Thrown e w' calls => after calls (handler e w')
    end.

#[export] Instance Monad_M : Monad M :=
  {| ret := @mret; bind := @mbind |}.

#[export] Instance MonadExc_M : MonadExc Exn M :=
  {| raise := @throw; catch := @tryCatch |}.

(** An [async] function either runs to its end or stops at an [await]. *)
Inductive Progress : Type :=
| Returned
| Awaiting.

(** [try { body } catch (err) { handler } finally { finalizer }] around a
    body that may stop at an [await]: the handler and the finalizer run
    when the body ends or throws, not when it is suspended. *)
Definition tryCatchFinally (body : M Progress) (handler : Exn -> M unit)
  (finalizer : M unit) : M Progress :=
  fun w =>
    match body w with
    | Normal Awaiting w' calls => Normal Awaiting w' calls
    | Normal Returned w' calls =>
        after calls ((finalizer ;; ret Returned) w')
    | Thrown e w' calls =>
        after calls
          (match handler e w' with
           | Normal _ w'' calls' =>
               after calls' ((finalizer ;; ret Returned) w'')
           | Thrown e' w'' calls' =>
               after calls' ((finalizer ;; raise e') w'')
           end)
    end.

Definition getView : M ViewState :=
  fun w => Normal (view w) w [].

Definition getRef : M (option SpeechRecognition) :=
  fun w => Normal (recognitionRef w) w [].

Definition getWindow : M Window :=
  fun w => Normal (window w) w [].

Definition getRecordDisabled : M bool :=
  fun w => Normal (recordDisabled w) w [].

Definition modifyView (f : ViewState -> ViewState) : M unit :=
  fun w => Normal tt (setView (f (view w)) w) [].

Definition setRef (r : option SpeechRecognition) : M unit :=
  fun w => Normal tt (mkWorld (view w) r (window w) (recordDisabled w)) [].

Definition call (e : Effect) : M unit :=
  fun w => Normal tt w [e].

Definition setIsRecording (b : bool) : M unit := modifyView (withIsRecording b).
Definition setOriginalText (f : JsString -> JsString) : M unit :=
  modifyView (fun v => withOriginalText (f (originalText v)) v).
Definition setTranslatedText (s : JsString) : M unit := modifyView (withTranslatedText s).
Definition setAgentReply (s : JsString) : M unit := modifyView (withAgentReply s).
Definition setAgentReplyTranslated (s : JsString) : M unit :=
  modifyView (withAgentReplyTranslated s).
Definition setInputLanguage (s : JsString) : M unit := modifyView (withInputLanguage s).
Definition setOutputLanguage (s : JsString) : M unit := modifyView (withOutputLanguage s).
Definition setIsTranslating (b : bool) : M unit := modifyView (withIsTranslating b).
Definition setIsTranslatingReply (b : bool) : M unit :=
  modifyView (withIsTranslatingReply b).
Definition setError (s : JsString) : M unit := modifyView (withError s).
Definition setInterimText (s : JsString) : M unit := modifyView (withInterimText s).
Definition setIsSpeaking (b : bool) : M unit := modifyView (withIsSpeaking b).

(** ** Recognition controller (the first two [useEffect]s) *)

(** The [for] loop of the result listener, from index [i], for at most
    [n] iterations; the pair is [(finalTranscript, interimTranscript)]. *)
Fixpoint resultLoop (n i : nat) (rs : list SpeechRecognitionResult)
  (acc : JsString * JsString) : JsString * JsString :=
  match n with
  | O => acc
  | S n' =>
      match nth_error rs i with
      | Some r =>
          let t := transcript (item0 r) in
          resultLoop n' (S i) rs
            (if isFinal r then (fst acc ++ t, snd acc)
             else (fst acc, snd acc ++ t))
      | None => acc
      end
  end.

Definition scanResults (event : SpeechRecognitionEvent) : JsString * JsString :=
  resultLoop (List.length (results event) - resultIndex event) (resultIndex event)
    (results event) (js "", js "").

(** The [result] listener. *)
Definition onResult (event : SpeechRecognitionEvent) : M unit :=
  let finalTranscript := fst (scanResults event) in
  let interimTranscript := snd (scanResults event) in
  if truthy finalTranscript then
    setOriginalText (fun prev => prev ++ finalTranscript) ;;
    setInterimText (js "")
  else
    setInterimText interimTranscript.

(** The [error] listener, with [event.error]. *)
Definition onRecognitionError (code : JsString) : M unit :=
  setError (js "Speech recognition error: " ++ code) ;;
  setIsRecording false.

(** The [end] listener. *)
Definition onRecognitionEnd : M unit :=
  setIsRecording false ;;
  setInterimText (js "").

(** The set-up effect: it creates and configures the recognition object
    when [window] has a constructor for it and sets the diagnostic
    otherwise; [new] on a value that is no constructor throws. *)
Definition setupRecognition : M unit :=
  win <- getWindow ;;
  v <- getView ;;
  if inWindow (winSpeechRecognition win)
     || inWindow (winWebkitSpeechRecognition win)
  then
    match orElse (winSpeechRecognition win) (winWebkitSpeechRecognition win) with
    | Constructor =>
        setRef (Some newSpeechRecognition) ;;
        r <- getRef ;;
        match r with
        | Some rec =>
            setRef (Some {| continuous := true;
                            interimResults := true;
                            lang := speechLocale (inputLanguage v) (js "th-TH");
                            listeners := listeners rec ++ [OnResult; OnError; OnEnd] |})
        | None => ret tt
        end
    | _ => raise TypeError
    end
  else
    setError (js "Speech recognition is not supported in this browser.").

(** The clean-up function of the set-up effect. *)
Definition cleanupRecognition : M unit :=
  r <- getRef ;;
  match r with
  | Some _ => call RecognitionStop
  | None => ret tt
  end.

(** The second effect: the recognition language follows the input
    language. *)
Definition updateRecognitionLanguage : M unit :=
  v <- getView ;;
  r <- getRef ;;
  match r with
  | Some rec =>
      setRef (Some {| continuous := continuous rec;
                      interimResults := interimResults rec;
                      lang := speechLocale (inputLanguage v) (js "th-TH");
                      listeners := listeners rec |})
  | None => ret tt
  end.

Definition startRecording : M unit :=
  v <- getView ;;
  r <- getRef ;;
  match r with
  | Some _ =>
      if negb (isRecording v) then
        setError (js "") ;;
        setIsRecording true ;;
        call RecognitionStart
      else ret tt
  | None => ret tt
  end.

Definition stopRecording : M unit :=
  v <- getView ;;
  r <- getRef ;;
  match r with
  | Some _ => if isRecording v then call RecognitionStop else ret tt
  | None => ret tt
  end.

Definition clearText : M unit :=
  setOriginalText (fun _ => js "") ;;
  setTranslatedText (js "") ;;
  setAgentReply (js "") ;;
  setAgentReplyTranslated (js "") ;;
  setInterimText (js "") ;;
  setError (js "").

(** ** Translation client *)

Definition translationUrl (text source target : JsString) : option JsString :=
  match encodeURIComponent text with
  | Some q =>
      Some (js "https://api.mymemory.translated.net/get?q=" ++ q
            ++ js "&langpair=" ++ source ++ js "|" ++ target)
  | None => None
  end.

(** [data.responseStatus === 200] *)
Definition isStatus200 (v : JsValue) : bool :=
  match v with
  | JsNumber n => n =? 200
  | _ => false
  end.

(** The [try] block up to [await fetch(...)]. *)
Definition requestTranslation (text source target : JsString) : M Progress :=
  match translationUrl text source target with
  | Some url => call (Fetch url) ;; ret Awaiting
  | None => raise URIError
  end.

(** The [try] block from the point where [fetch] settles; [store] is the
    setter of the slot the translation goes to. *)
Definition receiveTranslation (store : JsString -> M unit) (o : FetchOutcome)
  : M Progress :=
  match o with
  | FetchRejected => raise NetworkError
  | FetchResolved ok body =>
      if negb ok then raise (JsError (js "Translation service unavailable"))
      else
        match body with
        | JsonRejected => raise SyntaxError
        | JsonResolved data =>
            if isStatus200 (responseStatus data) then
              match responseData data with
              | Some d => store (responseTranslatedText d) ;; ret Returned
              | None => raise TypeError
              end
            else raise (JsError (js "Translation failed"))
        end
  end.

Definition translateTextCatch (err : Exn) : M unit :=
  setError (js "Translation failed. Please try again.") ;;
  call (ConsoleError (js "Translation error:")).

(** [translateText] up to its [await]: it returns at once on blank text,
    and otherwise sets the busy flag, clears the diagnostic and sends the
    request. *)
Definition translateText : M Progress :=
  v <- getView ;;
  if negb (truthy (trim (originalText v))) then ret Returned
  else
    setIsTranslating true ;;
    setError (js "") ;;
    tryCatchFinally
      (requestTranslation (originalText v) (inputLanguage v) (outputLanguage v))
      translateTextCatch
      (setIsTranslating false).

(** [translateText] resumed when its request settles with [o]. *)
Definition translateTextSettled (o : FetchOutcome) : M Progress :=
  tryCatchFinally
    (receiveTranslation setTranslatedText o)
    translateTextCatch
    (setIsTranslating false).

Definition translateAgentReplyCatch (err : Exn) : M unit :=
  setError (js "Agent reply translation failed. Please try again.") ;;
  call (ConsoleError (js "Translation error:")).

(** [translateAgentReply] up to its [await]; the language pair is the
    output language, then the input language. *)
Definition translateAgentReply : M Progress :=
  v <- getView ;;
  if negb (truthy (trim (agentReply v))) then ret Returned
  else
    setIsTranslatingReply true ;;
    setError (js "") ;;
    tryCatchFinally
      (requestTranslation (agentReply v) (outputLanguage v) (inputLanguage v))
      translateAgentReplyCatch
      (setIsTranslatingReply false).

Definition translateAgentReplySettled (o : FetchOutcome) : M Progress :=
  tryCatchFinally
    (receiveTranslation setAgentReplyTranslated o)
    translateAgentReplyCatch
    (setIsTranslatingReply false).

(** One whole call, the request (if any is issued) settling with [o]. *)
Definition translateTextCall (o : FetchOutcome) : M unit :=
  p <- translateText ;;
  match p with
  | Awaiting => translateTextSettled o ;; ret tt
  | Returned => ret tt
  end.

Definition translateAgentReplyCall (o : FetchOutcome) : M unit :=
  p <- translateAgentReply ;;
  match p with
  | Awaiting => translateAgentReplySettled o ;; ret tt
  | Returned => ret tt
  end.

(** ** Speech output controller *)

(** The utterance [speakText] builds: the text, the locale of the
    language, rate 0.9 and pitch 1. *)
Definition newUtterance (text language : JsString) : SpeechSynthesisUtterance :=
  {| utteranceText := text;
     utteranceLang := speechLocale language (js "en-US");
     rate := 9 # 10;
     pitch := 1 # 1 |}.

(** [speakText]: the callbacks it installs on the utterance are
    [onUtteranceStart], [onUtteranceEnd] and [onUtteranceError]. *)
Definition speakText (text language : JsString) : M unit :=
  win <- getWindow ;;
  if winSpeechSynthesis win then
    call SynthCancel ;;
    call (SynthSpeak (newUtterance text language))
  else
    setError (js "Text-to-speech is not supported in this browser.").

Definition onUtteranceStart : M unit := setIsSpeaking true.

Definition onUtteranceEnd : M unit := setIsSpeaking false.

Definition onUtteranceError : M unit :=
  setIsSpeaking false ;;
  setError (js "Text-to-speech failed. Please try again.").

(** [navigator.clipboard.writeText(text)]: where [navigator.clipboard] is
    undefined the member access throws. *)
Definition clipboardWriteText (text : JsString) : M unit :=
  win <- getWindow ;;
  if navigatorClipboard win then call (ClipboardWrite text)
  else raise TypeError.

(** [copyToClipboard] up to its [await]: an exception thrown by the call
    is caught and logged at once. *)
Definition copyToClipboard (text : JsString) : M unit :=
  catch (clipboardWriteText text)
    (fun _ => call (ConsoleError (js "Failed to copy text:"))).

(** The [catch] block of [copyToClipboard] when the pending write is
    rejected. *)
Definition copyToClipboardRejected : M unit :=
  call (ConsoleError (js "Failed to copy text:")).

(** The platform's utterance queue, as the calls of a trace leave it:
    [cancel] empties it and [speak] appends to it. *)
Fixpoint synthQueue (calls : list Effect) (queue : list SpeechSynthesisUtterance)
  : list SpeechSynthesisUtterance :=
  match calls with
  | [] => queue
  | SynthCancel :: rest => synthQueue rest []
  | SynthSpeak u :: rest => synthQueue rest (queue ++ [u])
  | _ :: rest => synthQueue rest queue
  end.

Definition isFetch (e : Effect) : bool :=
  match e with
  | Fetch _ => true
  | _ => false
  end.

(** The requests a trace sends to the translation service. *)
Definition requests (calls : list Effect) : list Effect :=
  filter isFetch calls.

(** ** Reactive wiring (the last two [useEffect]s) *)

Definition originalTextWatcher : M unit :=
  v <- getView ;;
  if truthy (trim (originalText v)) then translateText ;; ret tt
  else ret tt.

Definition agentReplyWatcher : M unit :=
  v <- getView ;;
  if truthy (trim (agentReply v)) then translateAgentReply ;; ret tt
  else setAgentReplyTranslated (js "").

(** ** Rendering and event dispatch *)

Definition viewEqb (a b : ViewState) : bool :=
  Bool.eqb (isRecording a) (isRecording b)
  && jseqb (originalText a) (originalText b)
  && jseqb (translatedText a) (translatedText b)
  && jseqb (agentReply a) (agentReply b)
  && jseqb (agentReplyTranslated a) (agentReplyTranslated b)
  && jseqb (inputLanguage a) (inputLanguage b)
  && jseqb (outputLanguage a) (outputLanguage b)
  && Bool.eqb (isTranslating a) (isTranslating b)
  && Bool.eqb (isTranslatingReply a) (isTranslatingReply b)
  && jseqb (error a) (error b)
  && jseqb (interimText a) (interimText b)
  && Bool.eqb (isSpeaking a) (isSpeaking b).

(** A render evaluates [disabled={!recognitionRef.current}]. *)
Definition rendered (w : World) : World :=
  mkWorld (view w) (recognitionRef w) (window w)
    (match recognitionRef w with
     | Some _ => false
     | None => true
     end).

Definition render : M unit :=
  fun w => Normal tt (rendered w) [].

(** A state update that changes nothing does not render again. *)
Definition renderIfChanged (old : ViewState) : M unit :=
  v <- getView ;;
  if viewEqb old v then ret tt else render.

(** The effects whose dependencies differ between the previous render
    ([old]) and this one: first the clean-up of the set-up effect, then the
    effects in declaration order. *)
Definition runEffects (old : ViewState) : M unit :=
  v <- getView ;;
  let inputChanged := negb (jseqb (inputLanguage old) (inputLanguage v)) in
  let outputChanged := negb (jseqb (outputLanguage old) (outputLanguage v)) in
  let originalChanged := negb (jseqb (originalText old) (originalText v)) in
  let replyChanged := negb (jseqb (agentReply old) (agentReply v)) in
  (if inputChanged then cleanupRecognition else ret tt) ;;
  (if inputChanged then setupRecognition ;; updateRecognitionLanguage
   else ret tt) ;;
  (if originalChanged || inputChanged || outputChanged
   then originalTextWatcher else ret tt) ;;
  (if replyChanged || inputChanged || outputChanged
   then agentReplyWatcher else ret tt).

Definition initialWorld (win : Window) : World :=
  {| view := initialView; recognitionRef := None; window := win;
     recordDisabled := true |}.

(** First render, then every effect in declaration order. *)
Definition mount : M unit :=
  render ;;
  old <- getView ;;
  setupRecognition ;;
  updateRecognitionLanguage ;;
  originalTextWatcher ;;
  agentReplyWatcher ;;
  renderIfChanged old.

(** The four texts that have a copy button. *)
Inductive TextSlot : Type :=
| OriginalSlot
| TranslatedSlot
| ReplySlot
| ReplyTranslatedSlot.

Inductive Event : Type :=
| RecognitionResult (event : SpeechRecognitionEvent)
| RecognitionError (code : JsString)
| RecognitionEnd
| ClickRecord
| ClickClear
| SelectInputLanguage (code : JsString)
| SelectOutputLanguage (code : JsString)
| TypeAgentReply (value : JsString)
| ClickClearReply
| ClickSpeakReply
| ClickSpeakReplyTranslated
| ClickCopy (slot : TextSlot)
| ClipboardRejected
| TranslationSettled (o : FetchOutcome)
| ReplyTranslationSettled (o : FetchOutcome)
| UtteranceStart
| UtteranceEnd
| UtteranceError.

Definition hasListener (t : ListenerType) (r : option SpeechRecognition) : bool :=
  match r with
  | Some rec =>
      existsb (fun t' =>
                 match t, t' with
                 | OnResult, OnResult | OnError, OnError | OnEnd, OnEnd => true
                 | _, _ => false
                 end) (listeners rec)
  | None => false
  end.

(** The reply panel is shown when [agentReply.trim() || isTranslatingReply]. *)
Definition replyPanelShown (v : ViewState) : bool :=
  truthy (trim (agentReply v)) || isTranslatingReply v.

(** The handler an event reaches. A recognition event reaches a listener
    only if one was registered; a click reaches its handler only if the
    button is rendered and not disabled. *)
Definition handle (ev : Event) : M unit :=
  v <- getView ;;
  r <- getRef ;;
  disabled <- getRecordDisabled ;;
  match ev with
  | RecognitionResult event =>
      if hasListener OnResult r then onResult event else ret tt
  | RecognitionError code =>
      if hasListener OnError r then onRecognitionError code else ret tt
  | RecognitionEnd =>
      if hasListener OnEnd r then onRecognitionEnd else ret tt
  | ClickRecord =>
      if disabled then ret tt
      else if isRecording v then stopRecording else startRecording
  | ClickClear => clearText
  | SelectInputLanguage code => setInputLanguage code
  | SelectOutputLanguage code => setOutputLanguage code
  | TypeAgentReply value => setAgentReply value
  | ClickClearReply => setAgentReply (js "")
  | ClickSpeakReply =>
      if replyPanelShown v && truthy (agentReply v) && negb (isSpeaking v)
      then speakText (agentReply v) (outputLanguage v) else ret tt
  | ClickSpeakReplyTranslated =>
      if replyPanelShown v && truthy (agentReplyTranslated v)
         && negb (isSpeaking v)
      then speakText (agentReplyTranslated v) (inputLanguage v) else ret tt
  | ClickCopy OriginalSlot =>
      if truthy (originalText v) then copyToClipboard (originalText v)
      else ret tt
  | ClickCopy TranslatedSlot =>
      if truthy (translatedText v) then copyToClipboard (translatedText v)
      else ret tt
  | ClickCopy ReplySlot =>
      if replyPanelShown v && truthy (agentReply v)
      then copyToClipboard (agentReply v) else ret tt
  | ClickCopy ReplyTranslatedSlot =>
      if replyPanelShown v && truthy (agentReplyTranslated v)
      then copyToClipboard (agentReplyTranslated v) else ret tt
  | ClipboardRejected => copyToClipboardRejected
  | TranslationSettled o => translateTextSettled o ;; ret tt
  | ReplyTranslationSettled o => translateAgentReplySettled o ;; ret tt
  | UtteranceStart => onUtteranceStart
  | UtteranceEnd => onUtteranceEnd
  | UtteranceError => onUtteranceError
  end.

(** One event: its handler, then (if the state changed) a render, the
    effects whose dependencies changed, and a second render if an effect
    changed the state again. *)
Definition dispatch (ev : Event) : M unit :=
  old <- getView ;;
  handle ev ;;
  v <- getView ;;
  if viewEqb old v then ret tt
  else
    render ;;
    runEffects old ;;
    renderIfChanged v.

Fixpoint run (evs : list Event) : M unit :=
  match evs with
  | [] => ret tt
  | ev :: rest => dispatch ev ;; run rest
  end.

(** Delivery of a sequence of result batches to the result listener. *)
Fixpoint deliver (events : list SpeechRecognitionEvent) : M unit :=
  match events with
  | [] => ret tt
  | event :: rest => onResult event ;; deliver rest
  end.

(** ** What a batch and a response contain, in the words of the spec *)

(** The segments a result event carries: those from the resume index on. *)
Definition batch (event : SpeechRecognitionEvent) : list SpeechRecognitionResult :=
  skipn (resultIndex event) (results event).

(** The transcript of a segment. *)
Definition segmentText (r : SpeechRecognitionResult) : JsString :=
  transcript (item0 r).

(** The transcripts of the segments of a batch marked final, in order. *)
Definition finalText (event : SpeechRecognitionEvent) : JsString :=
  List.concat (List.map segmentText (filter isFinal (batch event))).

Definition interimSegmentsText (event : SpeechRecognitionEvent) : JsString :=
  List.concat
    (List.map segmentText (filter (fun r => negb (isFinal r)) (batch event))).

Definition hasFinalSegment (event : SpeechRecognitionEvent) : bool :=
  existsb isFinal (batch event).

(** The text of a successful answer: transport status OK, a payload with
    [responseStatus] 200 and a [responseData]. Every other outcome is a
    failure. *)
Definition translationOf (o : FetchOutcome) : option JsString :=
  match o with
  | FetchResolved true (JsonResolved data) =>
      if isStatus200 (responseStatus data)
      then option_map responseTranslatedText (responseData data)
      else None
  | _ => None
  end.

Definition stateOf {A : Type} (o : Outcome A) : World :=
  match o with
  | Normal _ w _ => w
  | Thrown _ w _ => w
  end.

Definition callsOf {A : Type} (o : Outcome A) : list Effect :=
  match o with
  | Normal _ _ calls => calls
  | Thrown _ _ calls => calls
  end.

Definition returns {A : Type} (o : Outcome A) : bool :=
  match o with
  | Normal _ _ _ => true
  | Thrown _ _ _ => false
  end.

(** ** Sample platforms and inputs *)

(** A browser that offers recognition under the prefixed name only. *)
Definition prefixedWindow : Window :=
  {| winSpeechRecognition := Missing;
     winWebkitSpeechRecognition := Constructor;
     winSpeechSynthesis := true;
     navigatorClipboard := true |}.

(** A browser without speech recognition. *)
Definition noRecognitionWindow : Window :=
  {| winSpeechRecognition := Missing;
     winWebkitSpeechRecognition := Missing;
     winSpeechSynthesis := true;
     navigatorClipboard := true |}.

Definition mounted (win : Window) : World :=
  stateOf (mount (initialWorld win)).

Definition segment (text : JsString) (final : bool) : SpeechRecognitionResult :=
  {| item0 := {| transcript := text |}; otherItems := []; isFinal := final |}.

(** A batch whose only final segment has an empty transcript. *)
Definition emptyFinalEvent : SpeechRecognitionEvent :=
  {| results := [segment (js "") true; segment (js "hello") false];
     resultIndex := 0 |}.

(** A world whose transcript and reply hold only whitespace (space, tab,
    line feed, no-break space). *)
Definition blankTextWorld : World :=
  {| view := withAgentReply (js "  ")
               (withOriginalText [0x20; 0x09; 0x0A; 0xA0] initialView);
     recognitionRef := recognitionRef (mounted prefixedWindow);
     window := prefixedWindow;
     recordDisabled := false |}.

(** A Thai greeting, six code units. *)
Definition thaiText : JsString :=
  [0x0E2A; 0x0E27; 0x0E31; 0x0E2A; 0x0E14; 0x0E35].

(** The greeting recognised as one final segment. *)
Definition thaiBatch : SpeechRecognitionEvent :=
  {| results := [segment thaiText true]; resultIndex := 0 |}.

(** A world with the greeting as transcript, an earlier translation on
    display, the reply [Hello], input language [th] and output language
    [en]. *)
Definition thaiWorld : World :=
  {| view := withAgentReply (js "Hello")
               (withTranslatedText (js "earlier translation")
                  (withOriginalText thaiText initialView));
     recognitionRef := recognitionRef (mounted prefixedWindow);
     window := prefixedWindow;
     recordDisabled := false |}.

Definition success (text : JsString) : FetchOutcome :=
  FetchResolved true
    (JsonResolved {| responseStatus := JsNumber 200;
                     responseData := Some {| responseTranslatedText := text |} |}).

(** The service refuses: transport status OK, payload status ["403"]. *)
Definition refused : FetchOutcome :=
  FetchResolved true
    (JsonResolved {| responseStatus := JsText (js "403");
                     responseData := None |}).

(** A world in which an utterance is playing. *)
Definition speakingWorld : World :=
  {| view := withIsSpeaking true (view thaiWorld);
     recognitionRef := recognitionRef thaiWorld;
     window := prefixedWindow;
     recordDisabled := false |}.

(** The view state after a clear: the six text fields empty, the status
    flags and the language selections as they were. *)
Definition clearedView (v : ViewState) : ViewState :=
  {| isRecording := isRecording v;
     originalText := js "";
     translatedText := js "";
     agentReply := js "";
     agentReplyTranslated := js "";
     inputLanguage := inputLanguage v;
     outputLanguage := outputLanguage v;
     isTranslating := isTranslating v;
     isTranslatingReply := isTranslatingReply v;
     error := js "";
     interimText := js "";
     isSpeaking := isSpeaking v |}.

(** Three result batches: an interim guess; its final version with an
    interim start of the next utterance; the next utterance final, resumed
    at index 1. *)
Definition sampleBatches : list SpeechRecognitionEvent :=
  [ {| results := [segment (js "good mor") false]; resultIndex := 0 |};
    {| results := [segment (js "good morning ") true; segment (js "ev") false];
       resultIndex := 0 |};
    {| results := [segment (js "good morning ") true;
                   segment (js "everyone") true];
       resultIndex := 1 |} ].

(** ** The language selects and the request alphabet *)

(** The codes the two selects offer. *)
Definition languageCodes : list JsString := List.map fst languages.

(** [languages.find(l => l.code === code)?.name], the label of a panel. *)
Definition languageName (code : JsString) : option JsString :=
  option_map snd (find (fun entry => jseqb (fst entry) code) languages).

(** The entry of [speechLanguageCodes] under [code], if it has one. *)
Definition speechLanguageCode (code : JsString) : option JsString :=
  option_map snd (find (fun entry => jseqb (fst entry) code) speechLanguageCodes).

(** A string whose elements are UTF-16 code units. *)
Definition codeUnits (s : JsString) : bool :=
  forallb (fun c => c <? 0x10000) s.

(** A string without unpaired surrogates ([String.prototype.isWellFormed]). *)
Fixpoint wellFormed (s : JsString) : bool :=
  match s with
  | [] => true
  | c :: rest =>
      if isLeadSurrogate c then
        match rest with
        | d :: rest' => isTrailSurrogate d && wellFormed rest'
        | [] => false
        end
      else if isTrailSurrogate c then false
      else wellFormed rest
  end.

(** What an encoded component is made of: unreserved characters (among
    them the hexadecimal digits) and the percent sign. *)
Definition queryChar (c : N) : bool :=
  uriUnreserved c || (c =? 0x25).

(** The recognition object as the set-up effect configures it. *)
Definition configuredRecognition (code : JsString) : SpeechRecognition :=
  {| continuous := true;
     interimResults := true;
     lang := speechLocale code (js "th-TH");
     listeners := [OnResult; OnError; OnEnd] |}.

(** A platform whose [window] yields a recognition constructor. *)
Definition offersRecognition (win : Window) : bool :=
  (inWindow (winSpeechRecognition win)
   || inWindow (winWebkitSpeechRecognition win))
  && match orElse (winSpeechRecognition win) (winWebkitSpeechRecognition win) with
     | Constructor => true
     | _ => false
     end.

(** The mounted page after a first re-render, idle. *)
Definition idleWorld : World := rendered (mounted prefixedWindow).

(** The same page while recording, with a diagnostic on display. *)
Definition recordingWorld : World :=
  setView (withError (js "earlier diagnostic")
             (withInterimText (js "good mor")
                (withOriginalText (js "hello ")
                   (withIsRecording true (view idleWorld))))) idleWorld.

(** A platform without speech synthesis. *)
Definition silentWindow : Window :=
  {| winSpeechRecognition := Constructor;
     winWebkitSpeechRecognition := Missing;
     winSpeechSynthesis := false;
     navigatorClipboard := true |}.

(** The text a copy button copies. *)
Definition slotText (slot : TextSlot) (v : ViewState) : JsString :=
  match slot with
  | OriginalSlot => originalText v
  | TranslatedSlot => translatedText v
  | ReplySlot => agentReply v
  | ReplyTranslatedSlot => agentReplyTranslated v
  end.

(** The reply [Hello] with its translation on display, nothing playing. *)
Definition repliedWorld : World :=
  setView (withAgentReplyTranslated thaiText (view thaiWorld)) thaiWorld.

(** The same page on a platform without speech synthesis. *)
Definition silentWorld : World :=
  mkWorld (view repliedWorld) (recognitionRef repliedWorld) silentWindow false.

(** A page whose transcript and reply end in an unpaired lead surrogate. *)
Definition loneSurrogateWorld : World :=
  setView (withAgentReply (js "ok " ++ [0xD83D])
             (withOriginalText (js "hi " ++ [0xD83D]) (view idleWorld)))
    idleWorld.

(** Whether the copy button of a slot is rendered: its text is not empty
    and, for the two texts of the reply panel, the panel is shown. *)
Definition copyButtonShown (slot : TextSlot) (v : ViewState) : bool :=
  match slot with
  | OriginalSlot => truthy (originalText v)
  | TranslatedSlot => truthy (translatedText v)
  | ReplySlot => replyPanelShown v && truthy (agentReply v)
  | ReplyTranslatedSlot => replyPanelShown v && truthy (agentReplyTranslated v)
  end.

(** A page served over plain HTTP: [navigator.clipboard] is undefined. *)
Definition insecureWindow : Window :=
  {| winSpeechRecognition := Missing;
     winWebkitSpeechRecognition := Constructor;
     winSpeechSynthesis := true;
     navigatorClipboard := false |}.

Definition insecureWorld : World :=
  mkWorld (view repliedWorld) (recognitionRef repliedWorld) insecureWindow
    false.

(** The page of [thaiWorld] with a reply that ends in an unpaired lead
    surrogate. *)
Definition illFormedReplyWorld : World :=
  setView (withAgentReply (js "ok " ++ [0xD83D]) (view thaiWorld)) thaiWorld.

(** ** Degraded mode *)

(** The platform offers no speech recognition: neither constructor is in
    [window], no recognition object was created and the record button was
    rendered disabled. *)
Definition degraded (w : World) : Prop :=
  recognitionRef w = None
  /\ winSpeechRecognition (window w) = Missing
  /\ winWebkitSpeechRecognition (window w) = Missing
  /\ recordDisabled w = true.

(** A program that, run in degraded mode, stays in degraded mode and never
    starts recognition; it may throw. *)
Definition gentle {A : Type} (m : M A) : Prop :=
  forall w : World,
    degraded w ->
    degraded (stateOf (m w)) /\ ~ In RecognitionStart (callsOf (m w)).

(** A gentle program that also returns normally. *)
Definition steady {A : Type} (m : M A) : Prop :=
  forall w : World,
    degraded w ->
    returns (m w) = true
    /\ degraded (stateOf (m w)) /\ ~ In RecognitionStart (callsOf (m w)).

(** * Properties *)

(** ** Strings *)

Lemma trimStart_nil (s : JsString) :
  trimStart s = [] <-> blank s = true.
Proof.
  induction s as [|c s IH]; simpl.
  - split; reflexivity.
  - destruct (isWhiteSpace c); simpl.
    + exact IH.
    + split; discriminate.
Qed.

Lemma blank_app (a b : JsString) :
  blank (a ++ b) = blank a && blank b.
Proof. unfold blank. apply forallb_app. Qed.

Lemma blank_rev (s : JsString) : blank (rev s) = blank s.
Proof.
  induction s as [|c s IH]; simpl; [reflexivity|].
  rewrite blank_app, IH. simpl. rewrite andb_true_r. apply andb_comm.
Qed.

Lemma trimStart_keeps_nonblank (s : JsString) :
  blank s = false -> blank (trimStart s) = false.
Proof.
  induction s as [|c s IH]; simpl; [discriminate|].
  destruct (isWhiteSpace c) eqn:E; simpl.
  - exact IH.
  - rewrite E. reflexivity.
Qed.

(** [s.trim()] is falsy exactly when [s] is empty or whitespace-only. *)
Lemma truthy_trim (s : JsString) :
  truthy (trim s) = negb (blank s).
Proof.
  unfold trim, trimEnd.
  destruct (blank s) eqn:B; simpl.
  - apply trimStart_nil in B. rewrite B. reflexivity.
  - apply trimStart_keeps_nonblank in B.
    rewrite <- blank_rev in B. apply trimStart_keeps_nonblank in B.
    rewrite <- blank_rev in B.
    destruct (rev (trimStart (rev (trimStart s)))); [discriminate B | reflexivity].
Qed.

Lemma jseqb_refl (s : JsString) : jseqb s s = true.
Proof.
  induction s as [|c s IH]; simpl; [reflexivity|].
  rewrite N.eqb_refl. exact IH.
Qed.

Lemma jseqb_eq (a b : JsString) : jseqb a b = true -> a = b.
Proof.
  revert b. induction a as [|x a IH]; intros [|y b] H; simpl in H;
    try discriminate; [reflexivity|].
  apply andb_true_iff in H. destruct H as [Hx Hab].
  apply N.eqb_eq in Hx. apply IH in Hab. congruence.
Qed.

Example trim_strips_both_ends : trim (js "  a b  ") = js "a b".
Proof. reflexivity. Qed.

Example encodeURIComponent_thai :
  encodeURIComponent [0x0E2A; 0x0E27; 0x0E31; 0x0E2A; 0x0E14; 0x0E35]
  = Some (js "%E0%B8%AA%E0%B8%A7%E0%B8%B1%E0%B8%AA%E0%B8%94%E0%B8%B5").
Proof. reflexivity. Qed.

Example encodeURIComponent_reserved :
  encodeURIComponent (js "Hello, world & co")
  = Some (js "Hello%2C%20world%20%26%20co").
Proof. reflexivity. Qed.

(** A surrogate pair is encoded as one code point (U+1F600), a lone
    surrogate raises [URIError]. *)
Example encodeURIComponent_surrogates :
  encodeURIComponent [0xD83D; 0xDE00] = Some (js "%F0%9F%98%80")
  /\ encodeURIComponent [0xD83D] = None.
Proof. split; reflexivity. Qed.

(** ** Outcomes *)

Lemma after_nil {A : Type} (o : Outcome A) : after [] o = o.
Proof. destruct o; reflexivity. Qed.

Lemma returns_after {A : Type} (calls : list Effect) (o : Outcome A) :
  returns (after calls o) = returns o.
Proof. destruct o; reflexivity. Qed.

Lemma stateOf_after {A : Type} (calls : list Effect) (o : Outcome A) :
  stateOf (after calls o) = stateOf o.
Proof. destruct o; reflexivity. Qed.

Lemma callsOf_after {A : Type} (calls : list Effect) (o : Outcome A) :
  callsOf (after calls o) = calls ++ callsOf o.
Proof. destruct o; reflexivity. Qed.

Lemma setView_same (w : World) : setView (view w) w = w.
Proof. destruct w; reflexivity. Qed.

(** ** Rendering and dispatch *)

(** A render changes nothing but the rendered attribute of the record
    button. *)
Lemma renderIfChanged_spec (old : ViewState) (w : World) :
  exists rd : bool,
    renderIfChanged old w
    = Normal tt (mkWorld (view w) (recognitionRef w) (window w) rd) [].
Proof.
  unfold renderIfChanged. simpl. unfold mbind. simpl.
  destruct (viewEqb old (view w)); simpl.
  - exists (recordDisabled w). destruct w; reflexivity.
  - eexists. reflexivity.
Qed.

(** One dispatch, with its binds written out. *)
Lemma dispatch_unfold (ev : Event) (w : World) :
  dispatch ev w =
  match handle ev w with
  | Normal _ w1 calls =>
      after calls
        (if viewEqb (view w) (view w1) then Normal tt w1 []
         else
           match runEffects (view w) (rendered w1) with
           | Normal _ w2 calls2 => after calls2 (renderIfChanged (view w1) w2)
           | Thrown e w2 calls2 => Thrown e w2 calls2
           end)
  | Thrown e w1 calls => Thrown e w1 calls
  end.
Proof.
  unfold dispatch, bind, Monad_M, mbind, getView, render.
  cbv beta iota. rewrite after_nil.
  destruct (handle ev w) as [u w1 calls|e w1 calls]; [|reflexivity].
  rewrite after_nil.
  destruct (viewEqb (view w) (view w1)); [reflexivity|].
  rewrite after_nil. reflexivity.
Qed.

(** When neither language selection changed, only the two watchers can
    run. *)
Lemma runEffects_same_languages (old : ViewState) (w : World) :
  inputLanguage old = inputLanguage (view w) ->
  outputLanguage old = outputLanguage (view w) ->
  runEffects old w =
  match (if jseqb (originalText old) (originalText (view w))
         then Normal tt w [] else originalTextWatcher w) with
  | Normal _ w1 calls =>
      after calls
        (if jseqb (agentReply old) (agentReply (view w))
         then Normal tt w1 [] else agentReplyWatcher w1)
  | Thrown e w1 calls => Thrown e w1 calls
  end.
Proof.
  intros Hi Ho.
  unfold runEffects. simpl. unfold mbind. simpl.
  rewrite Hi, Ho, !jseqb_refl. simpl. rewrite !orb_false_r.
  destruct (jseqb (originalText old) (originalText (view w)));
    destruct (jseqb (agentReply old) (agentReply (view w)));
    simpl; rewrite ?after_nil; try reflexivity;
    destruct (originalTextWatcher w) as [u w1 calls|e w1 calls];
    simpl; rewrite ?app_nil_r; reflexivity.
Qed.

Lemma viewEqb_agentReply (a b : ViewState) :
  jseqb (agentReply a) (agentReply b) = false -> viewEqb a b = false.
Proof.
  intros H. unfold viewEqb. rewrite H.
  rewrite ?andb_false_r. reflexivity.
Qed.

Lemma viewEqb_refl (v : ViewState) : viewEqb v v = true.
Proof.
  unfold viewEqb. rewrite !jseqb_refl, !Bool.eqb_reflx. reflexivity.
Qed.

Lemma dispatch_same (ev : Event) (w : World) (calls : list Effect) :
  handle ev w = Normal tt w calls -> dispatch ev w = Normal tt w calls.
Proof.
  intros H. rewrite dispatch_unfold, H, viewEqb_refl.
  simpl. rewrite app_nil_r. reflexivity.
Qed.

(** A handler that leaves both language selections, the transcript and the
    reply text as they were sets off no effect: the dispatch ends with the
    view the handler left and the calls the handler made. *)
Lemma dispatch_unwatched (ev : Event) (w : World) (v1 : ViewState)
  (calls : list Effect) :
  handle ev w = Normal tt (setView v1 w) calls ->
  inputLanguage v1 = inputLanguage (view w) ->
  outputLanguage v1 = outputLanguage (view w) ->
  originalText v1 = originalText (view w) ->
  agentReply v1 = agentReply (view w) ->
  exists rd : bool,
    dispatch ev w
    = Normal tt (mkWorld v1 (recognitionRef w) (window w) rd) calls.
Proof.
  intros Hh Hi Ho Ht Hr.
  rewrite dispatch_unfold, Hh. cbn [view setView].
  destruct (viewEqb (view w) v1).
  - exists (recordDisabled w). simpl. rewrite app_nil_r. reflexivity.
  - rewrite runEffects_same_languages by (symmetry; assumption).
    unfold rendered. cbn [view setView recognitionRef window].
    rewrite <- Ht, <- Hr, !jseqb_refl. cbn [after app].
    match goal with
    | |- context [renderIfChanged ?old ?w0] =>
        destruct (renderIfChanged_spec old w0) as [rd ->]
    end.
    exists rd. simpl. rewrite app_nil_r. reflexivity.
Qed.

(** ** The translate operations, step by step *)

Lemma translateText_blank (w : World) :
  blank (originalText (view w)) = true ->
  translateText w = Normal Returned w [].
Proof.
  intros H. unfold translateText. simpl. unfold mbind. simpl.
  rewrite truthy_trim, H. reflexivity.
Qed.

Lemma translateAgentReply_blank (w : World) :
  blank (agentReply (view w)) = true ->
  translateAgentReply w = Normal Returned w [].
Proof.
  intros H. unfold translateAgentReply. simpl. unfold mbind. simpl.
  rewrite truthy_trim, H. reflexivity.
Qed.

(** On non-blank text the forward operation either stops at its request,
    with the busy flag set, or (no URL can be built) ends in its [catch]
    and [finally] blocks. *)
Lemma translateText_nonblank (w : World) :
  blank (originalText (view w)) = false ->
  translateText w =
  match translationUrl (originalText (view w)) (inputLanguage (view w))
          (outputLanguage (view w)) with
  | Some url =>
      Normal Awaiting
        (setView (withError (js "") (withIsTranslating true (view w))) w)
        [Fetch url]
  | None =>
      Normal Returned
        (setView (withIsTranslating false
                    (withError (js "Translation failed. Please try again.")
                       (withError (js "") (withIsTranslating true (view w))))) w)
        [ConsoleError (js "Translation error:")]
  end.
Proof.
  intros H. unfold translateText. simpl. unfold mbind. simpl.
  rewrite truthy_trim, H. simpl.
  unfold tryCatchFinally, requestTranslation. simpl.
  destruct (translationUrl _ _ _); reflexivity.
Qed.

Lemma translateAgentReply_nonblank (w : World) :
  blank (agentReply (view w)) = false ->
  translateAgentReply w =
  match translationUrl (agentReply (view w)) (outputLanguage (view w))
          (inputLanguage (view w)) with
  | Some url =>
      Normal Awaiting
        (setView (withError (js "") (withIsTranslatingReply true (view w))) w)
        [Fetch url]
  | None =>
      Normal Returned
        (setView (withIsTranslatingReply false
                    (withError (js "Agent reply translation failed. Please try again.")
                       (withError (js "") (withIsTranslatingReply true (view w))))) w)
        [ConsoleError (js "Translation error:")]
  end.
Proof.
  intros H. unfold translateAgentReply. simpl. unfold mbind. simpl.
  rewrite truthy_trim, H. simpl.
  unfold tryCatchFinally, requestTranslation. simpl.
  destruct (translationUrl _ _ _); reflexivity.
Qed.

(** What the forward operation does when its request settles: the answer
    is stored on success, the diagnostic is set on failure, and the busy
    flag is cleared either way. *)
Lemma translateTextSettled_spec (o : FetchOutcome) (w : World) :
  translateTextSettled o w =
  match translationOf o with
  | Some text =>
      Normal Returned
        (setView (withIsTranslating false (withTranslatedText text (view w))) w) []
  | None =>
      Normal Returned
        (setView (withIsTranslating false
                    (withError (js "Translation failed. Please try again.") (view w))) w)
        [ConsoleError (js "Translation error:")]
  end.
Proof.
  unfold translateTextSettled, tryCatchFinally, receiveTranslation, translationOf.
  destruct o as [|[|] [|[status [d|]]]]; simpl; try reflexivity;
    destruct (isStatus200 status); reflexivity.
Qed.

Lemma translateAgentReplySettled_spec (o : FetchOutcome) (w : World) :
  translateAgentReplySettled o w =
  match translationOf o with
  | Some text =>
      Normal Returned
        (setView (withIsTranslatingReply false
                    (withAgentReplyTranslated text (view w))) w) []
  | None =>
      Normal Returned
        (setView (withIsTranslatingReply false
                    (withError (js "Agent reply translation failed. Please try again.")
                       (view w))) w)
        [ConsoleError (js "Translation error:")]
  end.
Proof.
  unfold translateAgentReplySettled, tryCatchFinally, receiveTranslation,
    translationOf.
  destruct o as [|[|] [|[status [d|]]]]; simpl; try reflexivity;
    destruct (isStatus200 status); reflexivity.
Qed.

(** One whole forward call. *)
Lemma translateTextCall_spec (w : World) (o : FetchOutcome) :
  blank (originalText (view w)) = false ->
  translateTextCall o w =
  match translationUrl (originalText (view w)) (inputLanguage (view w))
          (outputLanguage (view w)) with
  | Some url =>
      match translationOf o with
      | Some text =>
          Normal tt
            (setView (withIsTranslating false
                        (withTranslatedText text
                           (withError (js "") (withIsTranslating true (view w))))) w)
            [Fetch url]
      | None =>
          Normal tt
            (setView (withIsTranslating false
                        (withError (js "Translation failed. Please try again.")
                           (withError (js "") (withIsTranslating true (view w))))) w)
            [Fetch url; ConsoleError (js "Translation error:")]
      end
  | None =>
      Normal tt
        (setView (withIsTranslating false
                    (withError (js "Translation failed. Please try again.")
                       (withError (js "") (withIsTranslating true (view w))))) w)
        [ConsoleError (js "Translation error:")]
  end.
Proof.
  intros H. unfold translateTextCall. simpl. unfold mbind.
  rewrite (translateText_nonblank w H).
  destruct (translationUrl _ _ _); simpl; [|reflexivity].
  rewrite translateTextSettled_spec. destruct (translationOf o); reflexivity.
Qed.

(** One whole reply call. *)
Lemma translateAgentReplyCall_spec (w : World) (o : FetchOutcome) :
  blank (agentReply (view w)) = false ->
  translateAgentReplyCall o w =
  match translationUrl (agentReply (view w)) (outputLanguage (view w))
          (inputLanguage (view w)) with
  | Some url =>
      match translationOf o with
      | Some text =>
          Normal tt
            (setView (withIsTranslatingReply false
                        (withAgentReplyTranslated text
                           (withError (js "")
                              (withIsTranslatingReply true (view w))))) w)
            [Fetch url]
      | None =>
          Normal tt
            (setView (withIsTranslatingReply false
                        (withError
                           (js "Agent reply translation failed. Please try again.")
                           (withError (js "")
                              (withIsTranslatingReply true (view w))))) w)
            [Fetch url; ConsoleError (js "Translation error:")]
      end
  | None =>
      Normal tt
        (setView (withIsTranslatingReply false
                    (withError
                       (js "Agent reply translation failed. Please try again.")
                       (withError (js "")
                          (withIsTranslatingReply true (view w))))) w)
        [ConsoleError (js "Translation error:")]
  end.
Proof.
  intros H. unfold translateAgentReplyCall. simpl. unfold mbind.
  rewrite (translateAgentReply_nonblank w H).
  destruct (translationUrl _ _ _); simpl; [|reflexivity].
  rewrite translateAgentReplySettled_spec.
  destruct (translationOf o); reflexivity.
Qed.

(** ** The watchers *)

Lemma originalTextWatcher_blank (w : World) :
  blank (originalText (view w)) = true ->
  originalTextWatcher w = Normal tt w [].
Proof.
  intros H. unfold originalTextWatcher. simpl. unfold mbind. simpl.
  rewrite truthy_trim, H. reflexivity.
Qed.

(** The watcher of the transcript returns and touches neither the
    transcript nor the recognition object. *)
Lemma originalTextWatcher_frame (w : World) :
  returns (originalTextWatcher w) = true
  /\ originalText (view (stateOf (originalTextWatcher w))) = originalText (view w)
  /\ recognitionRef (stateOf (originalTextWatcher w)) = recognitionRef w.
Proof.
  unfold originalTextWatcher. simpl. unfold mbind. simpl.
  rewrite truthy_trim.
  destruct (blank (originalText (view w))) eqn:B; simpl.
  - repeat split.
  - rewrite (translateText_nonblank w B).
    destruct (translationUrl _ _ _); simpl; repeat split.
Qed.

Lemma agentReplyWatcher_blank (w : World) :
  blank (agentReply (view w)) = true ->
  agentReplyWatcher w
  = Normal tt (setView (withAgentReplyTranslated (js "") (view w)) w) [].
Proof.
  intros H. unfold agentReplyWatcher. simpl. unfold mbind. simpl.
  rewrite truthy_trim, H. reflexivity.
Qed.

(** ** The result listener *)

Lemma skipn_nth_error {A : Type} (l : list A) (i : nat) (x : A) :
  nth_error l i = Some x -> skipn i l = x :: skipn (S i) l.
Proof.
  revert i. induction l as [|a l IH]; intros [|i] H; simpl in *;
    try discriminate.
  - congruence.
  - apply IH. exact H.
Qed.

(** The loop, started with as many iterations as there are indices from
    [i] to the end, visits the results from index [i] on, in order. *)
Lemma resultLoop_skipn (rs : list SpeechRecognitionResult) :
  forall (n i : nat) (acc : JsString * JsString),
    n = (List.length rs - i)%nat ->
    resultLoop n i rs acc =
    (fst acc ++ List.concat (List.map segmentText (filter isFinal (skipn i rs))),
     snd acc ++ List.concat
       (List.map segmentText (filter (fun r => negb (isFinal r)) (skipn i rs)))).
Proof.
  induction n as [|n IH]; intros i [f t] Hn; simpl.
  - rewrite skipn_all2 by lia. simpl. rewrite !app_nil_r. reflexivity.
  - destruct (nth_error rs i) as [r|] eqn:E.
    + rewrite (skipn_nth_error _ _ _ E). rewrite IH by lia.
      simpl. destruct (isFinal r); simpl;
        rewrite <- ?app_assoc; reflexivity.
    + apply nth_error_None in E. lia.
Qed.

Lemma scanResults_spec (event : SpeechRecognitionEvent) :
  scanResults event = (finalText event, interimSegmentsText event).
Proof.
  unfold scanResults. rewrite resultLoop_skipn by reflexivity. reflexivity.
Qed.

(** What one result event does to the state. *)
Lemma onResult_spec (event : SpeechRecognitionEvent) (w : World) :
  onResult event w =
  Normal tt
    (setView
       (if truthy (finalText event) then
          withInterimText (js "")
            (withOriginalText (originalText (view w) ++ finalText event) (view w))
        else withInterimText (interimSegmentsText event) (view w))
       w) [].
Proof.
  unfold onResult. rewrite scanResults_spec. simpl.
  destruct (truthy (finalText event)); reflexivity.
Qed.

Lemma onResult_originalText (event : SpeechRecognitionEvent) (w : World) :
  originalText (view (stateOf (onResult event w)))
  = originalText (view w) ++ finalText event.
Proof.
  rewrite onResult_spec. simpl.
  destruct (finalText event); simpl; [rewrite app_nil_r|]; reflexivity.
Qed.

Lemma deliver_spec (events : list SpeechRecognitionEvent) :
  forall w : World,
    exists w' : World,
      deliver events w = Normal tt w' []
      /\ originalText (view w')
         = originalText (view w) ++ List.concat (List.map finalText events).
Proof.
  induction events as [|event rest IH]; intros w.
  - exists w. split; [reflexivity|]. simpl. rewrite app_nil_r. reflexivity.
  - pose proof (onResult_originalText event w) as Ho.
    pose proof (onResult_spec event w) as Hs.
    destruct (IH (stateOf (onResult event w))) as (w' & Hrun & Htext).
    exists w'. split.
    + simpl. unfold mbind. rewrite Hs in *. simpl in *. rewrite Hrun.
      reflexivity.
    + rewrite Htext, Ho. simpl. rewrite app_assoc. reflexivity.
Qed.

Lemma handle_result (event : SpeechRecognitionEvent) (w : World) :
  hasListener OnResult (recognitionRef w) = true ->
  handle (RecognitionResult event) w = onResult event w.
Proof.
  intros H.
  unfold handle, bind, Monad_M, mbind, getView, getRef, getRecordDisabled.
  cbv beta iota. rewrite H. destruct (onResult event w); simpl; reflexivity.
Qed.

(** One result event with everything it sets off: the listener, the
    render and the watcher of the transcript. *)
Lemma dispatch_result (event : SpeechRecognitionEvent) (w : World) :
  hasListener OnResult (recognitionRef w) = true ->
  returns (dispatch (RecognitionResult event) w) = true
  /\ originalText (view (stateOf (dispatch (RecognitionResult event) w)))
     = originalText (view w) ++ finalText event
  /\ recognitionRef (stateOf (dispatch (RecognitionResult event) w))
     = recognitionRef w.
Proof.
  intros H.
  pose proof (onResult_originalText event w) as Ho.
  rewrite dispatch_unfold, (handle_result event w H).
  rewrite onResult_spec in *. cbn [stateOf view setView] in Ho.
  set (v1 := if truthy (finalText event) then _ else _) in *.
  rewrite after_nil. cbn [view setView].
  destruct (viewEqb (view w) v1); [repeat split; exact Ho|].
  assert (Hr1 : agentReply (view w) = agentReply v1)
    by (unfold v1; destruct (truthy (finalText event)); reflexivity).
  rewrite runEffects_same_languages;
    [|unfold v1; destruct (truthy (finalText event)); reflexivity ..].
  unfold rendered. cbn [view recognitionRef window setView].
  rewrite Hr1, jseqb_refl.
  match goal with
  | |- context [if ?c then _ else originalTextWatcher ?w0] =>
      destruct c;
      [|destruct (originalTextWatcher_frame w0) as (Hr & Ht & Hf);
        destruct (originalTextWatcher w0) as [u w2 calls2|]; [|discriminate Hr];
        cbn [stateOf] in Ht, Hf]
  end.
  - rewrite !after_nil.
    match goal with
    | |- context [renderIfChanged ?old ?w0] =>
        destruct (renderIfChanged_spec old w0) as [rd ->]
    end.
    repeat split. exact Ho.
  - cbn [after].
    destruct (renderIfChanged_spec v1 w2) as [rd ->].
    cbn in *. repeat split; congruence.
Qed.

Lemma run_results (events : list SpeechRecognitionEvent) :
  forall w : World,
    hasListener OnResult (recognitionRef w) = true ->
    returns (run (List.map RecognitionResult events) w) = true
    /\ originalText
         (view (stateOf (run (List.map RecognitionResult events) w)))
       = originalText (view w) ++ List.concat (List.map finalText events).
Proof.
  induction events as [|event rest IH]; intros w H.
  - simpl. rewrite app_nil_r. split; reflexivity.
  - destruct (dispatch_result event w H) as (Hr & Ht & Hf).
    simpl. unfold mbind.
    destruct (dispatch (RecognitionResult event) w) as [u w1 calls|];
      [|discriminate Hr].
    cbn [stateOf] in Ht, Hf.
    rewrite <- Hf in H. destruct (IH w1 H) as [Hr' Ht'].
    rewrite returns_after, stateOf_after. split; [exact Hr'|].
    rewrite Ht', Ht, <- app_assoc. reflexivity.
Qed.

(** C1. For every sequence of result batches delivered to the result
    listener, delivery returns normally and the finalized transcript
    afterwards is its prior value followed by the transcripts of all the
    segments marked final, in delivery order; so the prior value is kept
    as a prefix: no result event shortens or reorders it. The same holds
    when each event is dispatched with the render and the effects it sets
    off, on a recognition object that has the listener. *)
Theorem finalized_is_concatenation :
  forall (events : list SpeechRecognitionEvent) (w : World),
    (exists w' : World,
        deliver events w = Normal tt w' []
        /\ originalText (view w')
           = originalText (view w) ++ List.concat (List.map finalText events))
    /\ (hasListener OnResult (recognitionRef w) = true ->
        returns (run (List.map RecognitionResult events) w) = true
        /\ originalText
             (view (stateOf (run (List.map RecognitionResult events) w)))
           = originalText (view w) ++ List.concat (List.map finalText events)).
Proof.
  intros events w. split.
  - apply deliver_spec.
  - apply run_results.
Qed.

Lemma finalized_is_concatenation_witness :
  returns (run (List.map RecognitionResult sampleBatches)
             (mounted prefixedWindow)) = true
  /\ originalText
       (view (stateOf (run (List.map RecognitionResult sampleBatches)
                         (mounted prefixedWindow))))
     = js "good morning everyone".
Proof.
  apply (proj2 (finalized_is_concatenation sampleBatches
                  (mounted prefixedWindow))).
  reflexivity.
Defined.

Lemma truthy_final_text (l : list SpeechRecognitionResult)
  (r : SpeechRecognitionResult) :
  In r l -> isFinal r = true -> segmentText r <> js "" ->
  truthy (List.concat (List.map segmentText (filter isFinal l))) = true.
Proof.
  induction l as [|a l IH]; intros Hin Hf Ht; [destruct Hin|].
  simpl. destruct Hin as [-> | Hin].
  - rewrite Hf. simpl. destruct (segmentText r); [contradiction Ht|]; reflexivity.
  - destruct (isFinal a); simpl; [|auto].
    destruct (segmentText a); simpl; auto.
Qed.

(** When a batch yields no final text the interim text is replaced by the
    transcripts of its non-final segments. *)
Lemma interim_replaced_without_final_text
  (event : SpeechRecognitionEvent) (w : World) :
  finalText event = js "" ->
  interimText (view (stateOf (onResult event w))) = interimSegmentsText event.
Proof.
  intros H. rewrite onResult_spec, H. reflexivity.
Qed.

(** C2, as stated, fails: a batch with a segment marked final whose
    transcript is empty, followed by a non-final segment, leaves the
    interim text non-empty. *)
Lemma interim_kept_after_empty_final :
  hasFinalSegment emptyFinalEvent = true
  /\ interimText (view (stateOf (onResult emptyFinalEvent (mounted prefixedWindow))))
     <> js "".
Proof.
  split; [reflexivity|]. vm_compute. discriminate.
Qed.

(** C2, amended. For every result batch that contains at least one segment
    marked final with a non-empty transcript, the interim text is the empty
    string immediately after the result listener processes that batch. *)
Theorem interim_cleared_by_final_text :
  forall (event : SpeechRecognitionEvent) (w : World),
    (exists r : SpeechRecognitionResult,
        In r (batch event) /\ isFinal r = true /\ segmentText r <> js "") ->
    interimText (view (stateOf (onResult event w))) = js "".
Proof.
  intros event w (r & Hin & Hf & Ht).
  rewrite onResult_spec. unfold finalText.
  rewrite (truthy_final_text _ r Hin Hf Ht). reflexivity.
Qed.

Lemma interim_cleared_by_final_text_witness :
  interimText
    (view (stateOf (onResult
                      {| results := [segment (js "good ") true;
                                     segment (js "mor") false];
                         resultIndex := 0 |}
                      (mounted prefixedWindow)))) = js "".
Proof.
  apply interim_cleared_by_final_text.
  exists (segment (js "good ") true).
  split; [left; reflexivity|]. split; [reflexivity|]. discriminate.
Defined.

(** ** The translate operations *)

(** C3. For every empty or whitespace-only source text the forward
    translate operation, and likewise the reply translate operation,
    returns at once with no call made on the platform (so no network
    request) and with the whole state, busy flags included, unchanged. *)
Theorem blank_text_is_noop :
  forall w : World,
    (blank (originalText (view w)) = true ->
     translateText w = Normal Returned w [])
    /\ (blank (agentReply (view w)) = true ->
        translateAgentReply w = Normal Returned w []).
Proof.
  intros w. split.
  - apply translateText_blank.
  - apply translateAgentReply_blank.
Qed.

Lemma blank_text_is_noop_witness :
  translateText blankTextWorld = Normal Returned blankTextWorld []
  /\ translateAgentReply blankTextWorld = Normal Returned blankTextWorld [].
Proof.
  split.
  - apply (proj1 (blank_text_is_noop blankTextWorld)). reflexivity.
  - apply (proj2 (blank_text_is_noop blankTextWorld)). reflexivity.
Defined.

Lemma translateTextSettled_returns (w : World) (o : FetchOutcome) :
  returns (translateTextSettled o w) = true
  /\ isTranslating (view (stateOf (translateTextSettled o w))) = false.
Proof.
  rewrite translateTextSettled_spec. destruct (translationOf o); split; reflexivity.
Qed.

Lemma translateAgentReplySettled_returns (w : World) (o : FetchOutcome) :
  returns (translateAgentReplySettled o w) = true
  /\ isTranslatingReply (view (stateOf (translateAgentReplySettled o w))) = false.
Proof.
  rewrite translateAgentReplySettled_spec.
  destruct (translationOf o); split; reflexivity.
Qed.

Lemma translateTextCall_returns (w : World) (o : FetchOutcome) :
  blank (originalText (view w)) = false ->
  returns (translateTextCall o w) = true
  /\ isTranslating (view (stateOf (translateTextCall o w))) = false.
Proof.
  intros H. rewrite (translateTextCall_spec w o H).
  destruct (translationUrl _ _ _); [|split; reflexivity].
  destruct (translationOf o); split; reflexivity.
Qed.

Lemma translateAgentReplyCall_returns (w : World) (o : FetchOutcome) :
  blank (agentReply (view w)) = false ->
  returns (translateAgentReplyCall o w) = true
  /\ isTranslatingReply (view (stateOf (translateAgentReplyCall o w))) = false.
Proof.
  intros H. rewrite (translateAgentReplyCall_spec w o H).
  destruct (translationUrl _ _ _); [|split; reflexivity].
  destruct (translationOf o); split; reflexivity.
Qed.

Lemma handle_settled (o : FetchOutcome) (w : World) :
  handle (TranslationSettled o) w
  = after [] (after (callsOf (translateTextSettled o w))
                (Normal tt (stateOf (translateTextSettled o w)) []))
  /\ handle (ReplyTranslationSettled o) w
     = after [] (after (callsOf (translateAgentReplySettled o w))
                   (Normal tt (stateOf (translateAgentReplySettled o w)) [])).
Proof.
  rewrite translateTextSettled_spec, translateAgentReplySettled_spec.
  split.
  - transitivity (after [] (after [] (after [] ((translateTextSettled o ;; ret tt) w))));
      [reflexivity|].
    cbn [bind Monad_M]. unfold mbind. rewrite translateTextSettled_spec.
    destruct (translationOf o); reflexivity.
  - transitivity
      (after [] (after [] (after [] ((translateAgentReplySettled o ;; ret tt) w))));
      [reflexivity|].
    cbn [bind Monad_M]. unfold mbind. rewrite translateAgentReplySettled_spec.
    destruct (translationOf o); reflexivity.
Qed.

(** The settling of a request, dispatched with the render that follows:
    no effect runs again, and the busy flag stays cleared. *)
Lemma dispatch_settled_flag (o : FetchOutcome) (w : World) :
  (returns (dispatch (TranslationSettled o) w) = true
   /\ isTranslating (view (stateOf (dispatch (TranslationSettled o) w))) = false)
  /\ (returns (dispatch (ReplyTranslationSettled o) w) = true
      /\ isTranslatingReply
           (view (stateOf (dispatch (ReplyTranslationSettled o) w))) = false).
Proof.
  destruct (handle_settled o w) as [Hf Hr].
  split.
  - rewrite dispatch_unfold, Hf, translateTextSettled_spec.
    destruct (translationOf o) as [text|];
      cbn [callsOf stateOf after app view setView];
      match goal with
      | |- context [viewEqb ?a ?b] => destruct (viewEqb a b)
      end;
      try (split; reflexivity);
      rewrite runEffects_same_languages by reflexivity;
      unfold rendered; cbn [view setView recognitionRef window];
      cbn [originalText agentReply withIsTranslating withTranslatedText withError];
      rewrite !jseqb_refl; cbn [after app];
      match goal with
      | |- context [renderIfChanged ?old ?w0] =>
          destruct (renderIfChanged_spec old w0) as [rd ->]
      end;
      split; reflexivity.
  - rewrite dispatch_unfold, Hr, translateAgentReplySettled_spec.
    destruct (translationOf o) as [text|];
      cbn [callsOf stateOf after app view setView];
      match goal with
      | |- context [viewEqb ?a ?b] => destruct (viewEqb a b)
      end;
      try (split; reflexivity);
      rewrite runEffects_same_languages by reflexivity;
      unfold rendered; cbn [view setView recognitionRef window];
      cbn [originalText agentReply withIsTranslatingReply
             withAgentReplyTranslated withError];
      rewrite !jseqb_refl; cbn [after app];
      match goal with
      | |- context [renderIfChanged ?old ?w0] =>
          destruct (renderIfChanged_spec old w0) as [rd ->]
      end;
      split; reflexivity.
Qed.

(** C4. For every invocation of the forward or the reply translate
    operation on non-blank text and every way its request can end (also
    when no request can be built), the call returns normally and the
    corresponding busy flag is false afterwards; and whatever state the
    request finds when it settles, the settling step returns normally with
    the flag false, and the flag is still false after the render that
    follows it. *)
Theorem busy_flag_cleared :
  forall (w : World) (o : FetchOutcome),
    (blank (originalText (view w)) = false ->
     returns (translateTextCall o w) = true
     /\ isTranslating (view (stateOf (translateTextCall o w))) = false)
    /\ (blank (agentReply (view w)) = false ->
        returns (translateAgentReplyCall o w) = true
        /\ isTranslatingReply (view (stateOf (translateAgentReplyCall o w))) = false)
    /\ (returns (translateTextSettled o w) = true
        /\ isTranslating (view (stateOf (translateTextSettled o w))) = false)
    /\ (returns (translateAgentReplySettled o w) = true
        /\ isTranslatingReply (view (stateOf (translateAgentReplySettled o w))) = false)
    /\ (returns (dispatch (TranslationSettled o) w) = true
        /\ isTranslating
             (view (stateOf (dispatch (TranslationSettled o) w))) = false)
    /\ (returns (dispatch (ReplyTranslationSettled o) w) = true
        /\ isTranslatingReply
             (view (stateOf (dispatch (ReplyTranslationSettled o) w))) = false).
Proof.
  intros w o. split; [|split; [|split; [|split]]].
  - apply translateTextCall_returns.
  - apply translateAgentReplyCall_returns.
  - apply translateTextSettled_returns.
  - apply translateAgentReplySettled_returns.
  - apply dispatch_settled_flag.
Qed.

Lemma busy_flag_cleared_witness :
  (returns (translateTextCall refused thaiWorld) = true
   /\ isTranslating (view (stateOf (translateTextCall refused thaiWorld))) = false)
  /\ (returns (translateAgentReplyCall refused thaiWorld) = true
      /\ isTranslatingReply
           (view (stateOf (translateAgentReplyCall refused thaiWorld))) = false).
Proof.
  split.
  - apply (proj1 (busy_flag_cleared thaiWorld refused)). reflexivity.
  - apply (proj1 (proj2 (busy_flag_cleared thaiWorld refused))). reflexivity.
Defined.

(** C5. For every forward translation attempt on non-blank text: every
    request it sends is the service URL with the encoded text and the pair
    input|output; if the attempt fails (no request can be built, network
    failure, non-OK transport status, a payload whose status is not 200,
    or a payload without data) the diagnostic is
    "Translation failed. Please try again." and the translated slot holds
    the value it held before the attempt; on success exactly that one
    request was sent and the translated slot holds the returned text. *)
Theorem forward_translation_outcome :
  forall (w : World) (o : FetchOutcome),
    blank (originalText (view w)) = false ->
    (forall e : Effect,
        In e (requests (callsOf (translateTextCall o w))) ->
        exists q : JsString,
          encodeURIComponent (originalText (view w)) = Some q
          /\ e = Fetch (js "https://api.mymemory.translated.net/get?q=" ++ q
                        ++ js "&langpair=" ++ inputLanguage (view w)
                        ++ js "|" ++ outputLanguage (view w)))
    /\ (encodeURIComponent (originalText (view w)) = None
        \/ translationOf o = None ->
        error (view (stateOf (translateTextCall o w)))
        = js "Translation failed. Please try again."
        /\ translatedText (view (stateOf (translateTextCall o w)))
           = translatedText (view w))
    /\ (forall q text : JsString,
           encodeURIComponent (originalText (view w)) = Some q ->
           translationOf o = Some text ->
           requests (callsOf (translateTextCall o w))
           = [Fetch (js "https://api.mymemory.translated.net/get?q=" ++ q
                     ++ js "&langpair=" ++ inputLanguage (view w)
                     ++ js "|" ++ outputLanguage (view w))]
           /\ translatedText (view (stateOf (translateTextCall o w))) = text).
Proof.
  intros w o H. rewrite (translateTextCall_spec w o H).
  unfold translationUrl.
  destruct (encodeURIComponent (originalText (view w))) as [q|] eqn:Eq.
  - destruct (translationOf o) as [text|] eqn:Et; (split; [|split]).
    + intros e [<-|[]]. exists q. split; reflexivity.
    + intros [Hq|Ht]; discriminate.
    + intros q' text' Hq Ht. injection Hq as <-. injection Ht as <-.
      split; reflexivity.
    + intros e [<-|[]]. exists q. split; reflexivity.
    + intros _. split; reflexivity.
    + intros q' text' _ Ht. discriminate.
  - split; [|split].
    + intros e [].
    + intros _. split; reflexivity.
    + intros q' text' Hq. discriminate.
Qed.

Lemma forward_translation_outcome_witness :
  (error (view (stateOf (translateTextCall refused thaiWorld)))
   = js "Translation failed. Please try again."
   /\ translatedText (view (stateOf (translateTextCall refused thaiWorld)))
      = js "earlier translation")
  /\ (requests (callsOf (translateTextCall (success (js "Hello")) thaiWorld))
      = [Fetch (js "https://api.mymemory.translated.net/get?q=%E0%B8%AA%E0%B8%A7%E0%B8%B1%E0%B8%AA%E0%B8%94%E0%B8%B5&langpair=th|en")]
      /\ translatedText
           (view (stateOf (translateTextCall (success (js "Hello")) thaiWorld)))
         = js "Hello").
Proof.
  split.
  - apply (proj1 (proj2 (forward_translation_outcome thaiWorld refused eq_refl))).
    right. reflexivity.
  - apply (proj2 (proj2 (forward_translation_outcome thaiWorld
                           (success (js "Hello")) eq_refl))
             (js "%E0%B8%AA%E0%B8%A7%E0%B8%B1%E0%B8%AA%E0%B8%94%E0%B8%B5")
             (js "Hello")); reflexivity.
Defined.

(** C8. For every non-blank agent reply text, every request the reply
    translation sends carries the language pair swapped with respect to
    the forward direction, output|input, after the encoded reply text; and
    on success exactly that one request was sent and the reply-translated
    slot holds the returned text. *)
Theorem reply_translation_swaps_pair :
  forall (w : World) (o : FetchOutcome),
    blank (agentReply (view w)) = false ->
    (forall e : Effect,
        In e (requests (callsOf (translateAgentReplyCall o w))) ->
        exists q : JsString,
          encodeURIComponent (agentReply (view w)) = Some q
          /\ e = Fetch (js "https://api.mymemory.translated.net/get?q=" ++ q
                        ++ js "&langpair=" ++ outputLanguage (view w)
                        ++ js "|" ++ inputLanguage (view w)))
    /\ (forall q text : JsString,
           encodeURIComponent (agentReply (view w)) = Some q ->
           translationOf o = Some text ->
           requests (callsOf (translateAgentReplyCall o w))
           = [Fetch (js "https://api.mymemory.translated.net/get?q=" ++ q
                     ++ js "&langpair=" ++ outputLanguage (view w)
                     ++ js "|" ++ inputLanguage (view w))]
           /\ agentReplyTranslated
                (view (stateOf (translateAgentReplyCall o w))) = text).
Proof.
  intros w o H. rewrite (translateAgentReplyCall_spec w o H).
  unfold translationUrl.
  destruct (encodeURIComponent (agentReply (view w))) as [q|] eqn:Eq.
  - destruct (translationOf o) as [text|] eqn:Et; split.
    + intros e [<-|[]]. exists q. split; reflexivity.
    + intros q' text' Hq Ht. injection Hq as <-. injection Ht as <-.
      split; reflexivity.
    + intros e [<-|[]]. exists q. split; reflexivity.
    + intros q' text' _ Ht. discriminate.
  - split.
    + intros e [].
    + intros q' text' Hq. discriminate.
Qed.

Lemma reply_translation_swaps_pair_witness :
  requests (callsOf (translateAgentReplyCall (success (js "translated reply"))
                       thaiWorld))
  = [Fetch (js "https://api.mymemory.translated.net/get?q=Hello&langpair=en|th")]
  /\ agentReplyTranslated
       (view (stateOf (translateAgentReplyCall (success (js "translated reply"))
                         thaiWorld)))
     = js "translated reply".
Proof.
  apply (proj2 (reply_translation_swaps_pair thaiWorld
                  (success (js "translated reply")) eq_refl)
           (js "Hello") (js "translated reply")); reflexivity.
Defined.

(** ** Reactive wiring *)

(** C6. Whenever the agent reply text becomes empty or whitespace-only,
    the watcher of the reply text clears the reply-translated slot and
    makes no call on the platform; so the event that changes the reply
    text to such a value ends, within the same dispatch, with the new
    reply text stored, the reply-translated slot empty and no request
    sent. *)
Theorem blank_reply_clears_translation :
  forall w : World,
    (blank (agentReply (view w)) = true ->
     agentReplyWatcher w
     = Normal tt (setView (withAgentReplyTranslated (js "") (view w)) w) [])
    /\ (forall value : JsString,
           blank value = true ->
           jseqb (agentReply (view w)) value = false ->
           returns (dispatch (TypeAgentReply value) w) = true
           /\ agentReply (view (stateOf (dispatch (TypeAgentReply value) w)))
              = value
           /\ agentReplyTranslated
                (view (stateOf (dispatch (TypeAgentReply value) w))) = js ""
           /\ requests (callsOf (dispatch (TypeAgentReply value) w)) = []).
Proof.
  intros w. split; [apply agentReplyWatcher_blank|].
  intros value Hb Hne.
  rewrite dispatch_unfold.
  change (handle (TypeAgentReply value) w)
    with (Normal tt (setView (withAgentReply value (view w)) w) []).
  cbv beta iota. rewrite after_nil. cbn [view setView].
  rewrite viewEqb_agentReply by exact Hne.
  rewrite runEffects_same_languages by reflexivity.
  unfold rendered. cbn [view setView withAgentReply agentReply originalText].
  rewrite jseqb_refl, Hne, after_nil.
  rewrite agentReplyWatcher_blank by exact Hb.
  rewrite after_nil.
  match goal with
  | |- context [renderIfChanged ?old ?w0] =>
      destruct (renderIfChanged_spec old w0) as [rd ->]
  end.
  simpl. repeat split; reflexivity.
Qed.

Lemma blank_reply_clears_translation_witness :
  agentReplyWatcher blankTextWorld
  = Normal tt
      (setView (withAgentReplyTranslated (js "") (view blankTextWorld))
         blankTextWorld) []
  /\ (returns (dispatch (TypeAgentReply (js " ")) thaiWorld) = true
      /\ agentReply (view (stateOf (dispatch (TypeAgentReply (js " ")) thaiWorld)))
         = js " "
      /\ agentReplyTranslated
           (view (stateOf (dispatch (TypeAgentReply (js " ")) thaiWorld))) = js ""
      /\ requests (callsOf (dispatch (TypeAgentReply (js " ")) thaiWorld)) = []).
Proof.
  split.
  - apply (proj1 (blank_reply_clears_translation blankTextWorld)).
    reflexivity.
  - apply (proj2 (blank_reply_clears_translation thaiWorld) (js " "));
      reflexivity.
Defined.

(** The clear-reply button is the same update with the empty string. *)
Lemma clickClearReply_dispatch (w : World) :
  dispatch ClickClearReply w = dispatch (TypeAgentReply (js "")) w.
Proof. reflexivity. Qed.

(** The scenario of the forward direction: the greeting is recognised
    with input [th] and output [en]; the watcher sends the request for the
    pair [th|en]; a successful answer is displayed, a failed one sets the
    diagnostic and leaves the translated slot as it was. *)
Example scenario_forward :
  callsOf (run [RecognitionResult thaiBatch] (mounted prefixedWindow))
  = [Fetch (js "https://api.mymemory.translated.net/get?q=%E0%B8%AA%E0%B8%A7%E0%B8%B1%E0%B8%AA%E0%B8%94%E0%B8%B5&langpair=th|en")]
  /\ isTranslating
       (view (stateOf (run [RecognitionResult thaiBatch]
                         (mounted prefixedWindow)))) = true
  /\ translatedText
       (view (stateOf (run [RecognitionResult thaiBatch;
                            TranslationSettled (success (js "Hello"))]
                         (mounted prefixedWindow)))) = js "Hello"
  /\ error
       (view (stateOf (run [RecognitionResult thaiBatch;
                            TranslationSettled FetchRejected]
                         (mounted prefixedWindow))))
     = js "Translation failed. Please try again."
  /\ translatedText
       (view (stateOf (run [RecognitionResult thaiBatch;
                            TranslationSettled FetchRejected]
                         (mounted prefixedWindow)))) = js "".
Proof. repeat split. Qed.

(** The scenario of the reverse direction: the reply [Hello] is typed with
    input [th] and output [en]; the watcher sends the request for the pair
    [en|th] and the answer fills the reply-translated slot. *)
Example scenario_reply :
  callsOf (run [TypeAgentReply (js "Hello")] (mounted prefixedWindow))
  = [Fetch (js "https://api.mymemory.translated.net/get?q=Hello&langpair=en|th")]
  /\ agentReplyTranslated
       (view (stateOf (run [TypeAgentReply (js "Hello");
                            ReplyTranslationSettled (success thaiText)]
                         (mounted prefixedWindow)))) = thaiText.
Proof. repeat split. Qed.

(** ** Speech output *)

Lemma speakText_spec (text language : JsString) (w : World) :
  winSpeechSynthesis (window w) = true ->
  speakText text language w
  = Normal tt w [SynthCancel; SynthSpeak (newUtterance text language)].
Proof.
  intros H. unfold speakText. simpl. unfold mbind. simpl. rewrite H.
  reflexivity.
Qed.

(** The start callback sets the speaking flag; the end and error callbacks
    clear it, in any state. *)
Lemma utterance_callbacks_flag (w : World) :
  isSpeaking (view (stateOf (onUtteranceStart w))) = true
  /\ isSpeaking (view (stateOf (onUtteranceEnd w))) = false
  /\ isSpeaking (view (stateOf (onUtteranceError w))) = false.
Proof. repeat split. Qed.

Lemma truthy_nonblank (s : JsString) : blank s = false -> truthy s = true.
Proof. destruct s; [discriminate|reflexivity]. Qed.

Lemma handle_speakReply (w : World) :
  handle ClickSpeakReply w
  = if replyPanelShown (view w) && truthy (agentReply (view w))
       && negb (isSpeaking (view w))
    then speakText (agentReply (view w)) (outputLanguage (view w)) w
    else Normal tt w [].
Proof.
  unfold handle, bind, Monad_M, mbind, getView, getRef, getRecordDisabled.
  cbv beta iota. rewrite !after_nil.
  destruct (replyPanelShown (view w) && truthy (agentReply (view w))
            && negb (isSpeaking (view w))); reflexivity.
Qed.

Lemma handle_speakReplyTranslated (w : World) :
  handle ClickSpeakReplyTranslated w
  = if replyPanelShown (view w) && truthy (agentReplyTranslated (view w))
       && negb (isSpeaking (view w))
    then speakText (agentReplyTranslated (view w)) (inputLanguage (view w)) w
    else Normal tt w [].
Proof.
  unfold handle, bind, Monad_M, mbind, getView, getRef, getRecordDisabled.
  cbv beta iota. rewrite !after_nil.
  destruct (replyPanelShown (view w) && truthy (agentReplyTranslated (view w))
            && negb (isSpeaking (view w))); reflexivity.
Qed.






(** Two clicks on the play button of the reply before the first utterance
    has started, then the callbacks of the second utterance. *)
Example scenario_speak_twice :
  synthQueue
    (callsOf (run [ClickSpeakReply; ClickSpeakReply] thaiWorld)) []
  = [newUtterance (js "Hello") (js "en")]
  /\ isSpeaking
       (view (stateOf (run [ClickSpeakReply; ClickSpeakReply;
                            UtteranceStart; UtteranceEnd] thaiWorld))) = false.
Proof. split; reflexivity. Qed.

(** ** Clearing *)

Lemma clearText_spec (w : World) :
  clearText w = Normal tt (setView (clearedView (view w)) w) [].
Proof. reflexivity. Qed.

(** The click on the clear button with the render and the watchers it
    sets off: they run on empty texts and change nothing more. *)
Lemma dispatch_clear (w : World) :
  returns (dispatch ClickClear w) = true
  /\ view (stateOf (dispatch ClickClear w)) = clearedView (view w)
  /\ recognitionRef (stateOf (dispatch ClickClear w)) = recognitionRef w
  /\ window (stateOf (dispatch ClickClear w)) = window w
  /\ callsOf (dispatch ClickClear w) = [].
Proof.
  rewrite dispatch_unfold.
  change (handle ClickClear w)
    with (Normal tt (setView (clearedView (view w)) w) []).
  cbv beta iota. rewrite after_nil. cbn [view setView].
  destruct (viewEqb (view w) (clearedView (view w))); [repeat split|].
  rewrite runEffects_same_languages by reflexivity.
  unfold rendered. cbn [view setView recognitionRef window].
  destruct (jseqb (originalText (view w)) (originalText (clearedView (view w))));
    [|rewrite originalTextWatcher_blank by reflexivity];
    rewrite after_nil;
    (destruct (jseqb (agentReply (view w)) (agentReply (clearedView (view w))));
     [|rewrite agentReplyWatcher_blank by reflexivity]);
    rewrite after_nil;
    match goal with
    | |- context [renderIfChanged ?old ?w0] =>
        destruct (renderIfChanged_spec old w0) as [rd ->]
    end;
    repeat split.
Qed.

(** C10. The clear operation sets exactly the six text fields (finalized
    transcript, translated text, agent reply, reply-translated text,
    interim text and diagnostic) to the empty string and leaves recording
    status, both busy flags, the speaking flag and both language
    selections, as well as the rest of the world, unchanged; it makes no
    call on the platform, and the render and the watchers that follow the
    click change no view state either. *)
Theorem clear_resets_text_fields :
  forall w : World,
    clearText w
    = Normal tt
        {| view :=
             {| isRecording := isRecording (view w);
                originalText := js "";
                translatedText := js "";
                agentReply := js "";
                agentReplyTranslated := js "";
                inputLanguage := inputLanguage (view w);
                outputLanguage := outputLanguage (view w);
                isTranslating := isTranslating (view w);
                isTranslatingReply := isTranslatingReply (view w);
                error := js "";
                interimText := js "";
                isSpeaking := isSpeaking (view w) |};
           recognitionRef := recognitionRef w;
           window := window w;
           recordDisabled := recordDisabled w |} []
    /\ view (stateOf (dispatch ClickClear w)) = view (stateOf (clearText w))
    /\ callsOf (dispatch ClickClear w) = [].
Proof.
  intros w. split; [reflexivity|].
  destruct (dispatch_clear w) as (_ & Hv & _ & _ & Hc).
  split; [rewrite Hv; reflexivity | exact Hc].
Qed.

(** ** Degraded mode is stable *)

Section Degraded.

Context {A B : Type}.

Lemma steady_gentle (m : M A) : steady m -> gentle m.
Proof.
  intros Hm w Hw. apply (Hm w Hw).
Qed.

Lemma steady_ret (a : A) : steady (ret a : M A).
Proof.
  intros w Hw. simpl. repeat split; try apply Hw. intros [].
Qed.

Lemma gentle_raise (e : Exn) : gentle (raise e : M A).
Proof.
  intros w Hw. simpl. split; [exact Hw|intros []].
Qed.

Lemma gentle_bind (m : M A) (k : A -> M B) :
  gentle m -> (forall a, gentle (k a)) -> gentle (bind m k).
Proof.
  intros Hm Hk w Hw. simpl. unfold mbind.
  destruct (Hm w Hw) as [Hd Hc].
  destruct (m w) as [a w' calls|e w' calls]; simpl in *; [|split; assumption].
  destruct (Hk a w' Hd) as [Hd' Hc'].
  destruct (k a w') as [b w'' calls'|e w'' calls']; simpl in *;
    (split; [assumption|]);
    intros Hin; apply in_app_or in Hin; tauto.
Qed.

Lemma steady_bind (m : M A) (k : A -> M B) :
  steady m -> (forall a, steady (k a)) -> steady (bind m k).
Proof.
  intros Hm Hk w Hw.
  destruct (Hm w Hw) as (Hr & Hd & Hc).
  simpl. unfold mbind.
  destruct (m w) as [a w' calls|e w' calls]; simpl in *; [|discriminate].
  destruct (Hk a w' Hd) as (Hr' & Hd' & Hc').
  destruct (k a w') as [b w'' calls'|e w'' calls']; simpl in *;
    [|discriminate].
  repeat split; try apply Hd'.
  intros Hin; apply in_app_or in Hin; tauto.
Qed.

End Degraded.

Lemma steady_getView : steady getView.
Proof. intros w Hw. simpl. repeat split; try apply Hw. intros []. Qed.

Lemma steady_getRef : steady getRef.
Proof. intros w Hw. simpl. repeat split; try apply Hw. intros []. Qed.

Lemma steady_getWindow : steady getWindow.
Proof. intros w Hw. simpl. repeat split; try apply Hw. intros []. Qed.

Lemma steady_getRecordDisabled : steady getRecordDisabled.
Proof. intros w Hw. simpl. repeat split; try apply Hw. intros []. Qed.

Lemma steady_modifyView (f : ViewState -> ViewState) : steady (modifyView f).
Proof. intros w Hw. simpl. repeat split; try apply Hw. intros []. Qed.

Lemma steady_call (e : Effect) : e <> RecognitionStart -> steady (call e).
Proof.
  intros He w Hw. simpl. repeat split; try apply Hw.
  intros [H|[]]. congruence.
Qed.

Lemma steady_render : steady render.
Proof.
  intros w Hw. destruct Hw as (Hr & Hs & Hk & Hd).
  unfold render, rendered. simpl. rewrite Hr. repeat split; try assumption.
  intros [].
Qed.

Lemma steady_tryCatchFinally (body : M Progress) (handler : Exn -> M unit)
  (finalizer : M unit) :
  gentle body -> (forall e, steady (handler e)) -> steady finalizer ->
  steady (tryCatchFinally body handler finalizer).
Proof.
  intros Hb Hh Hf w Hw. unfold tryCatchFinally.
  destruct (Hb w Hw) as [Hd Hc].
  assert (Hfin : forall p : Progress, steady (finalizer ;; ret p)).
  { intros p. apply steady_bind; [exact Hf|]. intros _. apply steady_ret. }
  destruct (body w) as [[|] w' calls|e w' calls]; simpl in Hd, Hc.
  - destruct (Hfin Returned w' Hd) as (Hr & Hd' & Hc').
    rewrite returns_after, stateOf_after, callsOf_after.
    repeat split; try assumption; try apply Hd'.
    intros Hin. apply in_app_or in Hin. tauto.
  - simpl. repeat split; try apply Hd. exact Hc.
  - destruct (Hh e w' Hd) as (Hr & Hd' & Hc').
    destruct (handler e w') as [u w'' calls'|e' w'' calls']; simpl in *;
      [|discriminate].
    destruct (Hfin Returned w'' Hd') as (Hr2 & Hd2 & Hc2).
    rewrite !returns_after, !stateOf_after, !callsOf_after.
    repeat split; try assumption; try apply Hd2.
    intros Hin. apply in_app_or in Hin. destruct Hin as [Hin|Hin]; [tauto|].
    apply in_app_or in Hin. tauto.
Qed.

Ltac steady_step :=
  first
    [ apply steady_ret
    | apply steady_getView
    | apply steady_getRef
    | apply steady_getWindow
    | apply steady_getRecordDisabled
    | apply steady_modifyView
    | apply steady_render
    | apply steady_call; discriminate
    | apply steady_bind; [|intros ?]
    | match goal with
      | |- steady (if ?c then _ else _) => destruct c
      | |- steady (match ?x with _ => _ end) => destruct x
      end ].

Ltac steady_auto := repeat steady_step.

Lemma gentle_requestTranslation (text source target : JsString) :
  gentle (requestTranslation text source target).
Proof.
  unfold requestTranslation. destruct (translationUrl text source target).
  - apply steady_gentle. steady_auto.
  - apply gentle_raise.
Qed.

Lemma gentle_receiveTranslation (store : JsString -> M unit)
  (o : FetchOutcome) :
  (forall s, steady (store s)) -> gentle (receiveTranslation store o).
Proof.
  intros Hs. unfold receiveTranslation.
  destruct o as [|[|] [|[status [d|]]]]; simpl;
    try apply gentle_raise;
    destruct (isStatus200 status); try apply gentle_raise.
  apply steady_gentle. apply steady_bind; [apply Hs|]. intros _.
  apply steady_ret.
Qed.

Ltac steady_async :=
  apply steady_tryCatchFinally;
  [ first [ apply gentle_requestTranslation
          | apply gentle_receiveTranslation; intros ?; apply steady_modifyView ]
  | intros ?; unfold translateTextCatch, translateAgentReplyCatch; steady_auto
  | apply steady_modifyView ].

Lemma steady_translateText : steady translateText.
Proof. unfold translateText. steady_auto. steady_async. Qed.

Lemma steady_translateAgentReply : steady translateAgentReply.
Proof. unfold translateAgentReply. steady_auto. steady_async. Qed.

Lemma steady_translateTextSettled (o : FetchOutcome) :
  steady (translateTextSettled o).
Proof. unfold translateTextSettled. steady_async. Qed.

Lemma steady_translateAgentReplySettled (o : FetchOutcome) :
  steady (translateAgentReplySettled o).
Proof. unfold translateAgentReplySettled. steady_async. Qed.

Lemma steady_equation {A : Type} (m : M A) :
  (forall w, degraded w ->
             exists (a : A) (v : ViewState) (calls : list Effect),
               m w = Normal a (setView v w) calls
               /\ ~ In RecognitionStart calls) ->
  steady m.
Proof.
  intros H w Hw. destruct (H w Hw) as (a & v & calls & -> & Hc).
  simpl. repeat split; try apply Hw. exact Hc.
Qed.

(** In degraded mode the set-up effect only sets the diagnostic. *)
Lemma setupRecognition_degraded (w : World) :
  degraded w ->
  setupRecognition w
  = Normal tt
      (setView (withError
                  (js "Speech recognition is not supported in this browser.")
                  (view w)) w) [].
Proof.
  intros (Hr & Hs & Hk & Hd). unfold setupRecognition. simpl. unfold mbind.
  simpl. rewrite Hs, Hk. reflexivity.
Qed.

Lemma updateRecognitionLanguage_degraded (w : World) :
  degraded w -> updateRecognitionLanguage w = Normal tt w [].
Proof.
  intros (Hr & Hs & Hk & Hd). unfold updateRecognitionLanguage. simpl.
  unfold mbind. simpl. rewrite Hr. reflexivity.
Qed.

(** In degraded mode [startRecording] does nothing. *)
Lemma startRecording_degraded (w : World) :
  degraded w -> startRecording w = Normal tt w [].
Proof.
  intros (Hr & Hs & Hk & Hd). unfold startRecording. simpl.
  unfold mbind. simpl. rewrite Hr. reflexivity.
Qed.

Lemma clickRecord_degraded (w : World) :
  degraded w -> handle ClickRecord w = Normal tt w [].
Proof.
  intros (Hr & Hs & Hk & Hd). unfold handle. simpl. unfold mbind. simpl.
  rewrite Hd. reflexivity.
Qed.

Lemma steady_setupRecognition : steady setupRecognition.
Proof.
  apply steady_equation. intros w Hw.
  rewrite (setupRecognition_degraded w Hw).
  do 3 eexists. split; [reflexivity|]. intros [].
Qed.

Lemma steady_updateRecognitionLanguage : steady updateRecognitionLanguage.
Proof.
  apply steady_equation. intros w Hw.
  rewrite (updateRecognitionLanguage_degraded w Hw).
  exists tt, (view w), []. rewrite setView_same. split; [reflexivity|].
  intros [].
Qed.

Lemma steady_copyToClipboard (text : JsString) :
  steady (copyToClipboard text).
Proof.
  intros w Hw. unfold copyToClipboard, clipboardWriteText.
  simpl. unfold tryCatch, mbind, getWindow. simpl.
  destruct (navigatorClipboard (window w)); simpl;
    (split; [reflexivity|]); (split; [exact Hw|]);
    intros [H|[]]; discriminate H.
Qed.

Lemma steady_handle (ev : Event) : steady (handle ev).
Proof.
  destruct ev;
    try (unfold handle, onResult, onRecognitionError, onRecognitionEnd,
           clearText, speakText, copyToClipboardRejected,
           onUtteranceStart, onUtteranceEnd, onUtteranceError;
         steady_auto;
         first [ apply steady_translateTextSettled
               | apply steady_translateAgentReplySettled
               | apply steady_copyToClipboard ]).
  apply steady_equation. intros w Hw.
  rewrite (clickRecord_degraded w Hw).
  exists tt, (view w), []. rewrite setView_same. split; [reflexivity|].
  intros [].
Qed.

Lemma steady_watchers :
  steady originalTextWatcher /\ steady agentReplyWatcher.
Proof.
  split.
  - unfold originalTextWatcher.
    repeat first [apply steady_translateText | steady_step].
  - unfold agentReplyWatcher.
    repeat first [apply steady_translateAgentReply | steady_step].
Qed.

Lemma steady_renderIfChanged (old : ViewState) : steady (renderIfChanged old).
Proof. unfold renderIfChanged. steady_auto. Qed.

Lemma steady_runEffects (old : ViewState) : steady (runEffects old).
Proof.
  unfold runEffects, cleanupRecognition.
  repeat first
    [ apply steady_setupRecognition
    | apply steady_updateRecognitionLanguage
    | apply (proj1 steady_watchers)
    | apply (proj2 steady_watchers)
    | steady_step ].
Qed.

Lemma steady_dispatch (ev : Event) : steady (dispatch ev).
Proof.
  unfold dispatch.
  repeat first
    [ apply steady_handle
    | apply steady_runEffects
    | apply steady_renderIfChanged
    | steady_step ].
Qed.

Lemma steady_run (evs : list Event) : steady (run evs).
Proof.
  induction evs as [|ev rest IH]; simpl.
  - apply steady_ret.
  - apply steady_bind; [apply steady_dispatch|]. intros _. exact IH.
Qed.

Lemma steady_mount : steady mount.
Proof.
  unfold mount.
  repeat first
    [ apply steady_setupRecognition
    | apply steady_updateRecognitionLanguage
    | apply (proj1 steady_watchers)
    | apply (proj2 steady_watchers)
    | apply steady_renderIfChanged
    | steady_step ].
Qed.

Lemma initialWorld_degraded (win : Window) :
  winSpeechRecognition win = Missing ->
  winWebkitSpeechRecognition win = Missing ->
  degraded (initialWorld win).
Proof. intros H1 H2. repeat split; assumption. Qed.

Lemma mount_degraded_error (win : Window) :
  winSpeechRecognition win = Missing ->
  winWebkitSpeechRecognition win = Missing ->
  error (view (mounted win))
  = js "Speech recognition is not supported in this browser.".
Proof.
  intros H1 H2. unfold mounted. destruct win as [a b c d]. simpl in *. subst.
  reflexivity.
Qed.

(** C9. If the platform offers no speech-recognition capability, mounting
    returns normally with the diagnostic set to exactly
    "Speech recognition is not supported in this browser."; and after any
    sequence of events the application has still not thrown, no
    recognition object exists, recognition was never started, the record
    button is rendered disabled, and [startRecording], like a click on the
    button, changes nothing. *)
Theorem unsupported_recognition_degrades :
  forall (win : Window) (evs : list Event),
    winSpeechRecognition win = Missing ->
    winWebkitSpeechRecognition win = Missing ->
    returns (mount (initialWorld win)) = true
    /\ error (view (mounted win))
       = js "Speech recognition is not supported in this browser."
    /\ returns (run evs (mounted win)) = true
    /\ ~ In RecognitionStart (callsOf (run evs (mounted win)))
    /\ recognitionRef (stateOf (run evs (mounted win))) = None
    /\ recordDisabled (stateOf (run evs (mounted win))) = true
    /\ startRecording (stateOf (run evs (mounted win)))
       = Normal tt (stateOf (run evs (mounted win))) []
    /\ handle ClickRecord (stateOf (run evs (mounted win)))
       = Normal tt (stateOf (run evs (mounted win))) [].
Proof.
  intros win evs H1 H2.
  pose proof (initialWorld_degraded win H1 H2) as H0.
  destruct (steady_mount _ H0) as (Hr & Hd & _).
  fold (mounted win) in Hd.
  destruct (steady_run evs _ Hd) as (Hr' & Hd' & Hc').
  split; [exact Hr|].
  split; [apply mount_degraded_error; assumption|].
  split; [exact Hr'|].
  split; [exact Hc'|].
  split; [apply Hd'|].
  split; [apply Hd'|].
  split; [apply startRecording_degraded; exact Hd'|].
  apply clickRecord_degraded; exact Hd'.
Qed.

Lemma unsupported_recognition_degrades_witness :
  returns (mount (initialWorld noRecognitionWindow)) = true
  /\ error (view (mounted noRecognitionWindow))
     = js "Speech recognition is not supported in this browser."
  /\ returns (run [ClickRecord; SelectInputLanguage (js "en"); ClickRecord]
                (mounted noRecognitionWindow)) = true
  /\ ~ In RecognitionStart
         (callsOf (run [ClickRecord; SelectInputLanguage (js "en"); ClickRecord]
                     (mounted noRecognitionWindow)))
  /\ recognitionRef
       (stateOf (run [ClickRecord; SelectInputLanguage (js "en"); ClickRecord]
                   (mounted noRecognitionWindow))) = None
  /\ recordDisabled
       (stateOf (run [ClickRecord; SelectInputLanguage (js "en"); ClickRecord]
                   (mounted noRecognitionWindow))) = true
  /\ startRecording
       (stateOf (run [ClickRecord; SelectInputLanguage (js "en"); ClickRecord]
                   (mounted noRecognitionWindow)))
     = Normal tt
         (stateOf (run [ClickRecord; SelectInputLanguage (js "en"); ClickRecord]
                     (mounted noRecognitionWindow))) []
  /\ handle ClickRecord
       (stateOf (run [ClickRecord; SelectInputLanguage (js "en"); ClickRecord]
                   (mounted noRecognitionWindow)))
     = Normal tt
         (stateOf (run [ClickRecord; SelectInputLanguage (js "en"); ClickRecord]
                     (mounted noRecognitionWindow))) [].
Proof.
  apply (unsupported_recognition_degrades noRecognitionWindow
           [ClickRecord; SelectInputLanguage (js "en"); ClickRecord]);
    reflexivity.
Defined.

(** * Further properties of the component *)

(** ** Events that touch no watched slot *)

Lemma handle_error (code : JsString) (w : World) :
  hasListener OnError (recognitionRef w) = true ->
  handle (RecognitionError code) w = onRecognitionError code w.
Proof.
  intros H.
  unfold handle, bind, Monad_M, mbind, getView, getRef, getRecordDisabled.
  cbv beta iota. rewrite H.
  destruct (onRecognitionError code w); simpl; reflexivity.
Qed.

Lemma handle_end (w : World) :
  hasListener OnEnd (recognitionRef w) = true ->
  handle RecognitionEnd w = onRecognitionEnd w.
Proof.
  intros H.
  unfold handle, bind, Monad_M, mbind, getView, getRef, getRecordDisabled.
  cbv beta iota. rewrite H.
  destruct (onRecognitionEnd w); simpl; reflexivity.
Qed.

(** X1. A recognition error sets the diagnostic to
    "Speech recognition error: " followed by the error code and the
    recording status to idle; it changes nothing else and makes no call on
    the platform: recognition is not restarted. *)
Theorem recognition_error_stops_without_retry :
  forall (w : World) (code : JsString),
    hasListener OnError (recognitionRef w) = true ->
    exists rd : bool,
      dispatch (RecognitionError code) w
      = Normal tt
          (mkWorld
             (withIsRecording false
                (withError (js "Speech recognition error: " ++ code) (view w)))
             (recognitionRef w) (window w) rd) [].
Proof.
  intros w code H.
  apply dispatch_unwatched; try reflexivity.
  rewrite (handle_error code w H). reflexivity.
Qed.

Lemma recognition_error_stops_without_retry_witness :
  exists rd : bool,
    dispatch (RecognitionError (js "not-allowed")) recordingWorld
    = Normal tt
        (mkWorld
           (withIsRecording false
              (withError (js "Speech recognition error: not-allowed")
                 (view recordingWorld)))
           (recognitionRef recordingWorld) (window recordingWorld) rd) [].
Proof.
  apply (recognition_error_stops_without_retry recordingWorld
           (js "not-allowed")).
  reflexivity.
Defined.

(** X2. The end of a recognition session sets the recording status to idle
    and empties the interim text; the interim text is discarded, not
    appended: the finalized transcript and every other slot stay as they
    were, and no call is made on the platform. *)
Theorem recognition_end_discards_interim :
  forall w : World,
    hasListener OnEnd (recognitionRef w) = true ->
    exists rd : bool,
      dispatch RecognitionEnd w
      = Normal tt
          (mkWorld
             (withInterimText (js "") (withIsRecording false (view w)))
             (recognitionRef w) (window w) rd) [].
Proof.
  intros w H.
  apply dispatch_unwatched; try reflexivity.
  rewrite (handle_end w H). reflexivity.
Qed.

Lemma recognition_end_discards_interim_witness :
  exists rd : bool,
    dispatch RecognitionEnd recordingWorld
    = Normal tt
        (mkWorld
           (withInterimText (js "")
              (withIsRecording false (view recordingWorld)))
           (recognitionRef recordingWorld) (window recordingWorld) rd) [].
Proof.
  apply (recognition_end_discards_interim recordingWorld). reflexivity.
Defined.

(** ** The record button *)

Lemma startRecording_idle (w : World) (r : SpeechRecognition) :
  recognitionRef w = Some r ->
  isRecording (view w) = false ->
  startRecording w
  = Normal tt
      (setView (withIsRecording true (withError (js "") (view w))) w)
      [RecognitionStart].
Proof.
  intros Hr Hi. unfold startRecording. simpl. unfold mbind. simpl.
  rewrite Hr, Hi. reflexivity.
Qed.

Lemma stopRecording_recording (w : World) (r : SpeechRecognition) :
  recognitionRef w = Some r ->
  isRecording (view w) = true ->
  stopRecording w = Normal tt w [RecognitionStop].
Proof.
  intros Hr Hi. unfold stopRecording. simpl. unfold mbind. simpl.
  rewrite Hr, Hi. reflexivity.
Qed.

Lemma handle_clickRecord (w : World) :
  recordDisabled w = false ->
  handle ClickRecord w
  = if isRecording (view w) then stopRecording w else startRecording w.
Proof.
  intros H.
  unfold handle, bind, Monad_M, mbind, getView, getRef, getRecordDisabled.
  cbv beta iota. rewrite H. rewrite !after_nil.
  destruct (isRecording (view w)); reflexivity.
Qed.

Lemma dispatch_clickRecord_idle (w : World) (r : SpeechRecognition) :
  recognitionRef w = Some r ->
  recordDisabled w = false ->
  isRecording (view w) = false ->
  exists rd : bool,
    dispatch ClickRecord w
    = Normal tt
        (mkWorld (withIsRecording true (withError (js "") (view w)))
           (recognitionRef w) (window w) rd)
        [RecognitionStart].
Proof.
  intros Hr Hd Hi.
  apply dispatch_unwatched; try reflexivity.
  rewrite (handle_clickRecord w Hd), Hi.
  apply (startRecording_idle w r Hr Hi).
Qed.

(** X3. With a recognition object and the record button enabled, a click
    while idle clears the diagnostic, sets the recording status and starts
    recognition, once; a click while recording only asks recognition to
    stop and changes no state (the status is cleared later, by the end
    event). [startRecording] while recording and [stopRecording] while
    idle do nothing. *)
Theorem record_button_toggles :
  forall (w : World) (r : SpeechRecognition),
    recognitionRef w = Some r ->
    recordDisabled w = false ->
    (isRecording (view w) = false ->
     (exists rd : bool,
         dispatch ClickRecord w
         = Normal tt
             (mkWorld (withIsRecording true (withError (js "") (view w)))
                (recognitionRef w) (window w) rd)
             [RecognitionStart])
     /\ stopRecording w = Normal tt w [])
    /\ (isRecording (view w) = true ->
        dispatch ClickRecord w = Normal tt w [RecognitionStop]
        /\ startRecording w = Normal tt w []).
Proof.
  intros w r Hr Hd. split; intros Hi.
  - split.
    + apply (dispatch_clickRecord_idle w r Hr Hd Hi).
    + unfold stopRecording. simpl. unfold mbind. simpl.
      rewrite Hr, Hi. reflexivity.
  - split.
    + rewrite dispatch_unfold, (handle_clickRecord w Hd), Hi.
      rewrite (stopRecording_recording w r Hr Hi), viewEqb_refl.
      reflexivity.
    + unfold startRecording. simpl. unfold mbind. simpl.
      rewrite Hr, Hi. reflexivity.
Qed.

Lemma record_button_toggles_witness :
  (exists rd : bool,
      dispatch ClickRecord idleWorld
      = Normal tt
          (mkWorld (withIsRecording true (withError (js "") (view idleWorld)))
             (recognitionRef idleWorld) (window idleWorld) rd)
          [RecognitionStart])
  /\ dispatch ClickRecord recordingWorld
     = Normal tt recordingWorld [RecognitionStop].
Proof.
  split.
  - apply (proj1 (record_button_toggles idleWorld
                    (configuredRecognition (js "th")) eq_refl eq_refl)).
    reflexivity.
  - apply (proj2 (record_button_toggles recordingWorld
                    (configuredRecognition (js "th")) eq_refl eq_refl)).
    reflexivity.
Defined.

(** ** The watchers, case by case *)

Lemma originalTextWatcher_cases (w : World) :
  originalTextWatcher w =
  if blank (originalText (view w)) then Normal tt w []
  else
    match translationUrl (originalText (view w)) (inputLanguage (view w))
            (outputLanguage (view w)) with
    | Some url =>
        Normal tt
          (setView (withError (js "") (withIsTranslating true (view w))) w)
          [Fetch url]
    | None =>
        Normal tt
          (setView (withIsTranslating false
                      (withError (js "Translation failed. Please try again.")
                         (withError (js "")
                            (withIsTranslating true (view w))))) w)
          [ConsoleError (js "Translation error:")]
    end.
Proof.
  destruct (blank (originalText (view w))) eqn:B.
  - apply originalTextWatcher_blank. exact B.
  - unfold originalTextWatcher. simpl. unfold mbind. simpl.
    rewrite truthy_trim, B. simpl.
    rewrite (translateText_nonblank w B).
    destruct (translationUrl _ _ _); reflexivity.
Qed.

Lemma agentReplyWatcher_cases (w : World) :
  agentReplyWatcher w =
  if blank (agentReply (view w)) then
    Normal tt (setView (withAgentReplyTranslated (js "") (view w)) w) []
  else
    match translationUrl (agentReply (view w)) (outputLanguage (view w))
            (inputLanguage (view w)) with
    | Some url =>
        Normal tt
          (setView (withError (js "") (withIsTranslatingReply true (view w))) w)
          [Fetch url]
    | None =>
        Normal tt
          (setView (withIsTranslatingReply false
                      (withError
                         (js "Agent reply translation failed. Please try again.")
                         (withError (js "")
                            (withIsTranslatingReply true (view w))))) w)
          [ConsoleError (js "Translation error:")]
    end.
Proof.
  destruct (blank (agentReply (view w))) eqn:B.
  - apply agentReplyWatcher_blank. exact B.
  - unfold agentReplyWatcher. simpl. unfold mbind. simpl.
    rewrite truthy_trim, B. simpl.
    rewrite (translateAgentReply_nonblank w B).
    destruct (translationUrl _ _ _); reflexivity.
Qed.

(** X4. Typing a non-blank reply that differs from the current one stores
    it and, in the same dispatch, starts its translation. If the text can
    be encoded, exactly one request is sent, for that text with the pair
    output|input, the reply busy flag is set and the diagnostic is
    cleared, whatever it was. If [encodeURIComponent] throws, no request
    is sent: the error is logged, the diagnostic is
    "Agent reply translation failed. Please try again." and the busy flag
    is clear. Either way the reply-translated slot keeps its value. *)
Theorem typed_reply_requests_translation :
  forall (w : World) (value : JsString),
    jseqb (agentReply (view w)) value = false ->
    blank value = false ->
    exists rd : bool,
      dispatch (TypeAgentReply value) w
      = match encodeURIComponent value with
        | Some q =>
            Normal tt
              (mkWorld
                 (withError (js "")
                    (withIsTranslatingReply true
                       (withAgentReply value (view w))))
                 (recognitionRef w) (window w) rd)
              [Fetch (js "https://api.mymemory.translated.net/get?q=" ++ q
                      ++ js "&langpair=" ++ outputLanguage (view w)
                      ++ js "|" ++ inputLanguage (view w))]
        | None =>
            Normal tt
              (mkWorld
                 (withIsTranslatingReply false
                    (withError
                       (js "Agent reply translation failed. Please try again.")
                       (withError (js "")
                          (withIsTranslatingReply true
                             (withAgentReply value (view w))))))
                 (recognitionRef w) (window w) rd)
              [ConsoleError (js "Translation error:")]
        end.
Proof.
  intros w value Hne Hb.
  rewrite dispatch_unfold.
  change (handle (TypeAgentReply value) w)
    with (Normal tt (setView (withAgentReply value (view w)) w) []).
  cbv beta iota. rewrite after_nil. cbn [view setView].
  rewrite viewEqb_agentReply by exact Hne.
  rewrite runEffects_same_languages by reflexivity.
  unfold rendered. cbn [view setView withAgentReply agentReply originalText].
  rewrite jseqb_refl, Hne, after_nil.
  rewrite agentReplyWatcher_cases.
  cbn [view setView agentReply withAgentReply inputLanguage outputLanguage].
  rewrite Hb. unfold translationUrl.
  destruct (encodeURIComponent value) as [q|];
    cbn [after app];
    match goal with
    | |- context [renderIfChanged ?old ?w0] =>
        destruct (renderIfChanged_spec old w0) as [rd ->]
    end;
    exists rd; reflexivity.
Qed.

Lemma typed_reply_requests_translation_witness :
  (exists rd : bool,
      dispatch (TypeAgentReply (js "Hello")) (mounted noRecognitionWindow)
      = Normal tt
          (mkWorld
             (withError (js "")
                (withIsTranslatingReply true
                   (withAgentReply (js "Hello")
                      (view (mounted noRecognitionWindow)))))
             (recognitionRef (mounted noRecognitionWindow))
             (window (mounted noRecognitionWindow)) rd)
          [Fetch (js "https://api.mymemory.translated.net/get?q=Hello&langpair=en|th")])
  /\ exists rd : bool,
       dispatch (TypeAgentReply (js "ok " ++ [0xD83D])) idleWorld
       = Normal tt
           (mkWorld
              (withIsTranslatingReply false
                 (withError
                    (js "Agent reply translation failed. Please try again.")
                    (withError (js "")
                       (withIsTranslatingReply true
                          (withAgentReply (js "ok " ++ [0xD83D])
                             (view idleWorld))))))
              (recognitionRef idleWorld) (window idleWorld) rd)
           [ConsoleError (js "Translation error:")].
Proof.
  split.
  - exact (typed_reply_requests_translation (mounted noRecognitionWindow)
             (js "Hello") eq_refl eq_refl).
  - exact (typed_reply_requests_translation idleWorld
             (js "ok " ++ [0xD83D]) eq_refl eq_refl).
Defined.

(** ** Language changes *)

Lemma runEffects_output_changed (old : ViewState) (w : World) :
  inputLanguage old = inputLanguage (view w) ->
  jseqb (outputLanguage old) (outputLanguage (view w)) = false ->
  runEffects old w =
  match originalTextWatcher w with
  | Normal _ w1 calls => after calls (agentReplyWatcher w1)
  | Thrown e w1 calls => Thrown e w1 calls
  end.
Proof.
  intros Hi Ho.
  unfold runEffects. simpl. unfold mbind. simpl.
  rewrite Hi, Ho, !jseqb_refl. simpl. rewrite !orb_true_r.
  rewrite ?after_nil.
  destruct (originalTextWatcher w) as [u w1 calls|e w1 calls]; reflexivity.
Qed.

Lemma viewEqb_outputLanguage (a b : ViewState) :
  jseqb (outputLanguage a) (outputLanguage b) = false -> viewEqb a b = false.
Proof.
  intros H. unfold viewEqb. rewrite H.
  rewrite ?andb_false_r. reflexivity.
Qed.

Lemma viewEqb_inputLanguage (a b : ViewState) :
  jseqb (inputLanguage a) (inputLanguage b) = false -> viewEqb a b = false.
Proof.
  intros H. unfold viewEqb. rewrite H.
  rewrite ?andb_false_r. reflexivity.
Qed.

(** X5. Selecting another output language runs both watchers in the same
    dispatch, the forward one first. With a non-blank transcript and a
    non-blank reply, each text that can be encoded gets exactly one
    request (the transcript with the pair input|new output, then the reply
    with the pair new output|input), its busy flag set and the diagnostic
    cleared. A text for which [encodeURIComponent] throws gets no request:
    the error is logged, its busy flag ends clear and its failure
    diagnostic is set; the diagnostic of a failed forward start is erased
    again when the reply request starts. *)
Theorem output_language_change_retranslates :
  forall (w : World) (code : JsString),
    jseqb (outputLanguage (view w)) code = false ->
    blank (originalText (view w)) = false ->
    blank (agentReply (view w)) = false ->
    let forward :=
      match encodeURIComponent (originalText (view w)) with
      | Some q =>
          (withError (js "")
             (withIsTranslating true (withOutputLanguage code (view w))),
           [Fetch (js "https://api.mymemory.translated.net/get?q=" ++ q
                   ++ js "&langpair=" ++ inputLanguage (view w)
                   ++ js "|" ++ code)])
      | None =>
          (withIsTranslating false
             (withError (js "Translation failed. Please try again.")
                (withError (js "")
                   (withIsTranslating true
                      (withOutputLanguage code (view w))))),
           [ConsoleError (js "Translation error:")])
      end in
    let reply :=
      match encodeURIComponent (agentReply (view w)) with
      | Some q =>
          (withError (js "") (withIsTranslatingReply true (fst forward)),
           [Fetch (js "https://api.mymemory.translated.net/get?q=" ++ q
                   ++ js "&langpair=" ++ code
                   ++ js "|" ++ inputLanguage (view w))])
      | None =>
          (withIsTranslatingReply false
             (withError
                (js "Agent reply translation failed. Please try again.")
                (withError (js "")
                   (withIsTranslatingReply true (fst forward)))),
           [ConsoleError (js "Translation error:")])
      end in
    exists rd : bool,
      dispatch (SelectOutputLanguage code) w
      = Normal tt
          (mkWorld (fst reply) (recognitionRef w) (window w) rd)
          (snd forward ++ snd reply).
Proof.
  intros w code Hne Hb1 Hb2. cbv zeta.
  rewrite dispatch_unfold.
  change (handle (SelectOutputLanguage code) w)
    with (Normal tt (setView (withOutputLanguage code (view w)) w) []).
  cbv beta iota. rewrite after_nil. cbn [view setView].
  rewrite viewEqb_outputLanguage by exact Hne.
  rewrite runEffects_output_changed by (try reflexivity; exact Hne).
  unfold rendered. cbn [view setView recognitionRef window].
  rewrite originalTextWatcher_cases.
  cbn [view originalText withOutputLanguage inputLanguage outputLanguage].
  rewrite Hb1. unfold translationUrl at 1.
  destruct (encodeURIComponent (originalText (view w))) as [q1|];
    rewrite agentReplyWatcher_cases;
    cbn [view setView agentReply withOutputLanguage withError withIsTranslating
           inputLanguage outputLanguage];
    rewrite Hb2; unfold translationUrl;
    destruct (encodeURIComponent (agentReply (view w))) as [q2|];
    cbn [after app fst snd];
    match goal with
    | |- context [renderIfChanged ?old ?w0] =>
        destruct (renderIfChanged_spec old w0) as [rd ->]
    end;
    exists rd; reflexivity.
Qed.

Lemma output_language_change_retranslates_witness :
  (exists rd : bool,
      dispatch (SelectOutputLanguage (js "fr")) thaiWorld
      = Normal tt
          (mkWorld
             (withError (js "")
                (withIsTranslatingReply true
                   (withError (js "")
                      (withIsTranslating true
                         (withOutputLanguage (js "fr") (view thaiWorld))))))
             (recognitionRef thaiWorld) (window thaiWorld) rd)
          [Fetch (js "https://api.mymemory.translated.net/get?q=%E0%B8%AA%E0%B8%A7%E0%B8%B1%E0%B8%AA%E0%B8%94%E0%B8%B5&langpair=th|fr");
           Fetch (js "https://api.mymemory.translated.net/get?q=Hello&langpair=fr|th")])
  /\ exists rd : bool,
       dispatch (SelectOutputLanguage (js "fr")) illFormedReplyWorld
       = Normal tt
           (mkWorld
              (withIsTranslatingReply false
                 (withError
                    (js "Agent reply translation failed. Please try again.")
                    (withError (js "")
                       (withIsTranslatingReply true
                          (withError (js "")
                             (withIsTranslating true
                                (withOutputLanguage (js "fr")
                                   (view illFormedReplyWorld))))))))
              (recognitionRef illFormedReplyWorld)
              (window illFormedReplyWorld) rd)
           [Fetch (js "https://api.mymemory.translated.net/get?q=%E0%B8%AA%E0%B8%A7%E0%B8%B1%E0%B8%AA%E0%B8%94%E0%B8%B5&langpair=th|fr");
            ConsoleError (js "Translation error:")].
Proof.
  split.
  - exact (output_language_change_retranslates thaiWorld (js "fr")
             eq_refl eq_refl eq_refl).
  - exact (output_language_change_retranslates illFormedReplyWorld (js "fr")
             eq_refl eq_refl eq_refl).
Defined.

(** ** Set-up on a platform with speech recognition *)

Lemma setupRecognition_supported (w : World) :
  offersRecognition (window w) = true ->
  setupRecognition w
  = Normal tt
      (mkWorld (view w)
         (Some (configuredRecognition (inputLanguage (view w))))
         (window w) (recordDisabled w)) [].
Proof.
  intros H. unfold offersRecognition in H.
  unfold setupRecognition. simpl. unfold mbind. simpl.
  destruct (winSpeechRecognition (window w));
    destruct (winWebkitSpeechRecognition (window w));
    try discriminate H; reflexivity.
Qed.

(** X6. On a platform that offers a recognition constructor, mounting
    creates one recognition object in continuous mode with interim results,
    bound to the locale of the initial input language ([th-TH]) and
    carrying the result, error and end listeners; it sets no diagnostic and
    makes no call on the platform (recognition is not started by itself). *)
Theorem mount_configures_recognition :
  forall win : Window,
    offersRecognition win = true ->
    mount (initialWorld win)
    = Normal tt
        {| view := initialView;
           recognitionRef :=
             Some {| continuous := true;
                     interimResults := true;
                     lang := js "th-TH";
                     listeners := [OnResult; OnError; OnEnd] |};
           window := win;
           recordDisabled := true |} [].
Proof.
  intros [sr wk syn] H. unfold offersRecognition in H. simpl in H.
  destruct sr; destruct wk; try discriminate H; reflexivity.
Qed.

Lemma mount_configures_recognition_witness :
  mount (initialWorld prefixedWindow)
  = Normal tt
      {| view := initialView;
         recognitionRef :=
           Some {| continuous := true;
                   interimResults := true;
                   lang := js "th-TH";
                   listeners := [OnResult; OnError; OnEnd] |};
         window := prefixedWindow;
         recordDisabled := true |} [].
Proof.
  apply (mount_configures_recognition prefixedWindow). reflexivity.
Defined.

Lemma clickRecord_disabled (w : World) :
  recordDisabled w = true -> dispatch ClickRecord w = Normal tt w [].
Proof.
  intros H. rewrite dispatch_unfold.
  assert (Hh : handle ClickRecord w = Normal tt w []).
  { unfold handle, bind, Monad_M, mbind, getView, getRef, getRecordDisabled.
    cbv beta iota. rewrite H. reflexivity. }
  rewrite Hh, viewEqb_refl. reflexivity.
Qed.

(** A world that was rendered with its present recognition object is
    left as it is by a further render. *)
Lemma renderIfChanged_rendered (old : ViewState) (w : World) :
  recordDisabled w
  = match recognitionRef w with
    | Some _ => false
    | None => true
    end ->
  renderIfChanged old w = Normal tt w [].
Proof.
  intros H. unfold renderIfChanged, render, rendered.
  cbn [bind Monad_M]. unfold mbind, getView. cbv beta iota.
  destruct (viewEqb old (view w)); cbn [after app ret mret]; unfold mret.
  - reflexivity.
  - rewrite <- H. destruct w; reflexivity.
Qed.

(** The dispatch of a reply change ends in a world that was rendered with
    the recognition object in place. *)
Lemma dispatch_typeReply_rendered (w : World) (value : JsString) :
  jseqb (agentReply (view w)) value = false ->
  returns (dispatch (TypeAgentReply value) w) = true
  /\ recordDisabled (stateOf (dispatch (TypeAgentReply value) w))
  = match recognitionRef w with
    | Some _ => false
    | None => true
    end
  /\ recognitionRef (stateOf (dispatch (TypeAgentReply value) w))
     = recognitionRef w
  /\ isRecording (view (stateOf (dispatch (TypeAgentReply value) w)))
     = isRecording (view w).
Proof.
  intros Hne.
  rewrite dispatch_unfold.
  change (handle (TypeAgentReply value) w)
    with (Normal tt (setView (withAgentReply value (view w)) w) []).
  cbv beta iota. rewrite after_nil. cbn [view setView].
  rewrite viewEqb_agentReply by exact Hne.
  rewrite runEffects_same_languages by reflexivity.
  unfold rendered. cbn [view setView withAgentReply agentReply originalText].
  rewrite jseqb_refl, Hne, after_nil.
  rewrite agentReplyWatcher_cases.
  cbn [view setView agentReply withAgentReply inputLanguage outputLanguage
         recognitionRef window recordDisabled].
  destruct (blank value);
    [|destruct (translationUrl value (outputLanguage (view w))
                  (inputLanguage (view w)))];
    cbn [after app];
    rewrite renderIfChanged_rendered by reflexivity;
    repeat split; reflexivity.
Qed.

(** X7. The record button is rendered from [recognitionRef.current], which
    the first render finds empty: right after mounting, also on a platform
    that offers recognition, the button is disabled and a click on it does
    nothing. The first event that changes the view (here: a reply text
    different from the empty one) renders it enabled, and the next click
    starts recognition. *)
Theorem record_button_enabled_by_rerender :
  forall (win : Window) (value : JsString),
    offersRecognition win = true ->
    jseqb (js "") value = false ->
    recordDisabled (mounted win) = true
    /\ dispatch ClickRecord (mounted win) = Normal tt (mounted win) []
    /\ recordDisabled (stateOf (dispatch (TypeAgentReply value) (mounted win)))
       = false
    /\ callsOf (run [TypeAgentReply value; ClickRecord] (mounted win))
       = callsOf (dispatch (TypeAgentReply value) (mounted win))
         ++ [RecognitionStart].
Proof.
  intros win value H Hne.
  assert (Hm : mounted win
               = mkWorld initialView (Some (configuredRecognition (js "th")))
                   win true).
  { unfold mounted. rewrite (mount_configures_recognition win H). reflexivity. }
  assert (Hne' : jseqb (agentReply (view (mounted win))) value = false)
    by (rewrite Hm; exact Hne).
  destruct (dispatch_typeReply_rendered (mounted win) value Hne')
    as (Hret & Hd & Hr & Hi).
  rewrite Hm in Hret, Hd, Hr, Hi.
  cbn [recognitionRef view isRecording initialView] in *.
  split; [rewrite Hm; reflexivity|].
  split; [apply clickRecord_disabled; rewrite Hm; reflexivity|].
  split; [rewrite Hm; exact Hd|].
  rewrite Hm. cbn [run bind Monad_M]. unfold mbind.
  destruct (dispatch (TypeAgentReply value) _) as [u w1 calls|e w1 calls];
    [|discriminate Hret].
  cbn [stateOf] in Hd, Hr, Hi. cbn [callsOf].
  rewrite callsOf_after. f_equal.
  destruct (dispatch_clickRecord_idle w1 _ Hr Hd Hi) as [rd Hc].
  unfold mbind. rewrite Hc. reflexivity.
Qed.

Lemma record_button_enabled_by_rerender_witness :
  recordDisabled (mounted prefixedWindow) = true
  /\ dispatch ClickRecord (mounted prefixedWindow)
     = Normal tt (mounted prefixedWindow) []
  /\ recordDisabled
       (stateOf (dispatch (TypeAgentReply (js "Hi")) (mounted prefixedWindow)))
     = false
  /\ callsOf (run [TypeAgentReply (js "Hi"); ClickRecord]
                (mounted prefixedWindow))
     = callsOf (dispatch (TypeAgentReply (js "Hi")) (mounted prefixedWindow))
       ++ [RecognitionStart].
Proof.
  apply (record_button_enabled_by_rerender prefixedWindow (js "Hi"));
    reflexivity.
Defined.

Lemma runEffects_input_changed (old : ViewState) (w : World)
  (r : SpeechRecognition) :
  recognitionRef w = Some r ->
  offersRecognition (window w) = true ->
  jseqb (inputLanguage old) (inputLanguage (view w)) = false ->
  runEffects old w =
  after [RecognitionStop]
    match originalTextWatcher
            (mkWorld (view w)
               (Some (configuredRecognition (inputLanguage (view w))))
               (window w) (recordDisabled w)) with
    | Normal _ w1 calls => after calls (agentReplyWatcher w1)
    | Thrown e w1 calls => Thrown e w1 calls
    end.
Proof.
  intros Hr Hw Hne.
  unfold runEffects.
  cbn -[setupRecognition originalTextWatcher agentReplyWatcher jseqb].
  unfold mbind.
  cbn -[setupRecognition originalTextWatcher agentReplyWatcher jseqb].
  rewrite Hne.
  cbn -[setupRecognition originalTextWatcher agentReplyWatcher jseqb].
  rewrite Hr. unfold call. cbn [after app].
  rewrite (setupRecognition_supported w Hw).
  unfold setRef.
  cbn [after app recognitionRef view window recordDisabled negb orb].
  rewrite !orb_true_r. cbn [orb].
  match goal with
  | |- context [originalTextWatcher ?w0] =>
      change w0 with (mkWorld (view w)
                        (Some (configuredRecognition (inputLanguage (view w))))
                        (window w) (recordDisabled w))
  end.
  destruct (originalTextWatcher _) as [u w1 calls|e w1 calls];
    cbn [after app]; [|reflexivity].
  destruct (agentReplyWatcher w1); cbn [after app]; reflexivity.
Qed.

(** X8. Selecting another input language, with a recognition object in
    place, first asks the running recognition to stop and then replaces
    the recognition object by a new one, continuous with interim results,
    bound to the locale of the new language; the new object is not
    started, and the recording status is left as it was (only the end
    event of the old session clears it). *)
Theorem input_language_change_rebinds :
  forall (w : World) (r : SpeechRecognition) (code : JsString),
    recognitionRef w = Some r ->
    offersRecognition (window w) = true ->
    jseqb (inputLanguage (view w)) code = false ->
    returns (dispatch (SelectInputLanguage code) w) = true
    /\ recognitionRef (stateOf (dispatch (SelectInputLanguage code) w))
       = Some (configuredRecognition code)
    /\ inputLanguage (view (stateOf (dispatch (SelectInputLanguage code) w)))
       = code
    /\ isRecording (view (stateOf (dispatch (SelectInputLanguage code) w)))
       = isRecording (view w)
    /\ exists rest : list Effect,
         callsOf (dispatch (SelectInputLanguage code) w)
         = RecognitionStop :: rest
         /\ ~ In RecognitionStart rest.
Proof.
  intros w r code Hr Hw Hne.
  rewrite dispatch_unfold.
  change (handle (SelectInputLanguage code) w)
    with (Normal tt (setView (withInputLanguage code (view w)) w) []).
  cbv beta iota. rewrite after_nil. cbn [view setView].
  rewrite viewEqb_inputLanguage by exact Hne.
  rewrite (runEffects_input_changed _ _ r); try assumption.
  unfold rendered. cbn [view setView recognitionRef window recordDisabled].
  rewrite originalTextWatcher_cases, Hr.
  cbn [view setView originalText inputLanguage outputLanguage withInputLanguage].
  destruct (blank (originalText (view w)));
    [|destruct (translationUrl (originalText (view w)) code
                  (outputLanguage (view w)))];
    rewrite agentReplyWatcher_cases;
    cbn [view setView agentReply inputLanguage outputLanguage withInputLanguage
           withError withIsTranslating];
    (destruct (blank (agentReply (view w)));
     [|destruct (translationUrl (agentReply (view w)) (outputLanguage (view w))
                   code)]);
    cbn [after app];
    rewrite renderIfChanged_rendered by reflexivity;
    cbn [after app returns stateOf callsOf];
    (split; [reflexivity|]); (split; [reflexivity|]);
    (split; [reflexivity|]); (split; [reflexivity|]);
    eexists; (split; [reflexivity|]);
    intros Hin;
    repeat (destruct Hin as [Hin|Hin]; [discriminate Hin|]);
    exact Hin.
Qed.

Lemma input_language_change_rebinds_witness :
  returns (dispatch (SelectInputLanguage (js "ja")) recordingWorld) = true
  /\ recognitionRef (stateOf (dispatch (SelectInputLanguage (js "ja")) recordingWorld))
     = Some (configuredRecognition (js "ja"))
  /\ inputLanguage
       (view (stateOf (dispatch (SelectInputLanguage (js "ja")) recordingWorld)))
     = js "ja"
  /\ isRecording
       (view (stateOf (dispatch (SelectInputLanguage (js "ja")) recordingWorld)))
     = isRecording (view recordingWorld)
  /\ exists rest : list Effect,
       callsOf (dispatch (SelectInputLanguage (js "ja")) recordingWorld)
       = RecognitionStop :: rest
       /\ ~ In RecognitionStart rest.
Proof.
  apply (input_language_change_rebinds recordingWorld
           (configuredRecognition (js "th")) (js "ja")); reflexivity.
Defined.

(** ** Responses, in the order they arrive *)

(** X9. A reply translation attempt on non-blank text that fails (no
    request can be built, network failure, non-OK transport status, payload
    status other than 200 or payload without data) sets the diagnostic to
    "Agent reply translation failed. Please try again.", clears the reply
    busy flag and leaves both translated slots as they were. *)
Theorem reply_translation_failure :
  forall (w : World) (o : FetchOutcome),
    blank (agentReply (view w)) = false ->
    encodeURIComponent (agentReply (view w)) = None
    \/ translationOf o = None ->
    error (view (stateOf (translateAgentReplyCall o w)))
    = js "Agent reply translation failed. Please try again."
    /\ agentReplyTranslated (view (stateOf (translateAgentReplyCall o w)))
       = agentReplyTranslated (view w)
    /\ translatedText (view (stateOf (translateAgentReplyCall o w)))
       = translatedText (view w)
    /\ isTranslatingReply (view (stateOf (translateAgentReplyCall o w)))
       = false.
Proof.
  intros w o H Hf. rewrite (translateAgentReplyCall_spec w o H).
  unfold translationUrl.
  destruct (encodeURIComponent (agentReply (view w))) as [q|] eqn:Eq.
  - destruct Hf as [Hf|Hf]; [discriminate Hf|]. rewrite Hf.
    repeat split.
  - repeat split.
Qed.

Lemma reply_translation_failure_witness :
  error (view (stateOf (translateAgentReplyCall FetchRejected thaiWorld)))
  = js "Agent reply translation failed. Please try again."
  /\ agentReplyTranslated
       (view (stateOf (translateAgentReplyCall FetchRejected thaiWorld)))
     = agentReplyTranslated (view thaiWorld)
  /\ translatedText
       (view (stateOf (translateAgentReplyCall FetchRejected thaiWorld)))
     = translatedText (view thaiWorld)
  /\ isTranslatingReply
       (view (stateOf (translateAgentReplyCall FetchRejected thaiWorld)))
     = false.
Proof.
  apply (reply_translation_failure thaiWorld FetchRejected eq_refl).
  right. reflexivity.
Defined.

(** The settling of a forward request with the render that follows it. *)
Lemma dispatch_settled_view (o : FetchOutcome) (w : World) :
  exists rd : bool,
    dispatch (TranslationSettled o) w
    = Normal tt
        (mkWorld
           (withIsTranslating false
              (match translationOf o with
               | Some text => withTranslatedText text (view w)
               | None =>
                   withError (js "Translation failed. Please try again.")
                     (view w)
               end))
           (recognitionRef w) (window w) rd)
        (match translationOf o with
         | Some _ => []
         | None => [ConsoleError (js "Translation error:")]
         end).
Proof.
  apply dispatch_unwatched;
    try (destruct (translationOf o); reflexivity).
  rewrite (proj1 (handle_settled o w)), translateTextSettled_spec.
  destruct (translationOf o); reflexivity.
Qed.

(** X10. Forward responses are applied in the order they arrive, whichever
    request they answer: after two of them the translated slot shows the
    text of the last successful one (its earlier value if both failed),
    the busy flag is clear, and the failure diagnostic is on display if
    either of them failed, also when the later one succeeded. *)
Theorem responses_apply_in_arrival_order :
  forall (w : World) (o1 o2 : FetchOutcome),
    returns (run [TranslationSettled o1; TranslationSettled o2] w) = true
    /\ translatedText
         (view (stateOf (run [TranslationSettled o1; TranslationSettled o2] w)))
       = match translationOf o2, translationOf o1 with
         | Some text, _ => text
         | None, Some text => text
         | None, None => translatedText (view w)
         end
    /\ error
         (view (stateOf (run [TranslationSettled o1; TranslationSettled o2] w)))
       = match translationOf o2, translationOf o1 with
         | Some _, Some _ => error (view w)
         | _, _ => js "Translation failed. Please try again."
         end
    /\ isTranslating
         (view (stateOf (run [TranslationSettled o1; TranslationSettled o2] w)))
       = false.
Proof.
  intros w o1 o2. cbn [run bind Monad_M]. unfold mbind.
  destruct (dispatch_settled_view o1 w) as [rd1 ->].
  match goal with
  | |- context [dispatch (TranslationSettled o2) ?w1] =>
      destruct (dispatch_settled_view o2 w1) as [rd2 ->]
  end.
  cbn [view].
  destruct (translationOf o1); destruct (translationOf o2); repeat split.
Qed.

(** X11. The clear operation cancels no request: a forward response that
    arrives after a click on the clear button is applied all the same, so
    a successful one fills the translated slot again while the transcript
    stays empty. *)
Theorem response_after_clear_is_applied :
  forall (w : World) (o : FetchOutcome) (text : JsString),
    translationOf o = Some text ->
    returns (run [ClickClear; TranslationSettled o] w) = true
    /\ originalText
         (view (stateOf (run [ClickClear; TranslationSettled o] w))) = js ""
    /\ translatedText
         (view (stateOf (run [ClickClear; TranslationSettled o] w))) = text.
Proof.
  intros w o text Ho. cbn [run bind Monad_M]. unfold mbind.
  destruct (dispatch_clear w) as (Hr & Hv & _ & _ & _).
  destruct (dispatch ClickClear w) as [u w1 calls|e w1 calls];
    [|discriminate Hr].
  cbn [stateOf] in Hv.
  destruct (dispatch_settled_view o w1) as [rd ->].
  rewrite Ho, Hv. repeat split.
Qed.

Lemma response_after_clear_is_applied_witness :
  returns (run [ClickClear; TranslationSettled (success (js "Hello"))]
             thaiWorld) = true
  /\ originalText
       (view (stateOf (run [ClickClear; TranslationSettled (success (js "Hello"))]
                         thaiWorld))) = js ""
  /\ translatedText
       (view (stateOf (run [ClickClear; TranslationSettled (success (js "Hello"))]
                         thaiWorld))) = js "Hello".
Proof.
  apply (response_after_clear_is_applied thaiWorld (success (js "Hello"))
           (js "Hello")).
  reflexivity.
Defined.

(** ** Play and copy buttons *)

(** X12. While the speaking flag is set a click on either play button does
    nothing. Otherwise, with a non-blank reply and speech synthesis on the
    platform, the play button of the reply cancels the utterance in
    progress and speaks the reply in the locale of the output language,
    and the play button of a non-empty translated reply speaks it in the
    locale of the input language; neither changes any state. Without
    speech synthesis the click only sets the diagnostic
    "Text-to-speech is not supported in this browser.". *)
Theorem play_buttons :
  forall w : World,
    (isSpeaking (view w) = true ->
     dispatch ClickSpeakReply w = Normal tt w []
     /\ dispatch ClickSpeakReplyTranslated w = Normal tt w [])
    /\ (isSpeaking (view w) = false ->
        blank (agentReply (view w)) = false ->
        winSpeechSynthesis (window w) = true ->
        dispatch ClickSpeakReply w
        = Normal tt w
            [SynthCancel;
             SynthSpeak (newUtterance (agentReply (view w))
                           (outputLanguage (view w)))]
        /\ (truthy (agentReplyTranslated (view w)) = true ->
            dispatch ClickSpeakReplyTranslated w
            = Normal tt w
                [SynthCancel;
                 SynthSpeak (newUtterance (agentReplyTranslated (view w))
                               (inputLanguage (view w)))]))
    /\ (isSpeaking (view w) = false ->
        blank (agentReply (view w)) = false ->
        winSpeechSynthesis (window w) = false ->
        exists rd : bool,
          dispatch ClickSpeakReply w
          = Normal tt
              (mkWorld
                 (withError
                    (js "Text-to-speech is not supported in this browser.")
                    (view w))
                 (recognitionRef w) (window w) rd) []).
Proof.
  intros w. split; [|split].
  - intros Hs. split; apply dispatch_same.
    + rewrite handle_speakReply, Hs, andb_false_r. reflexivity.
    + rewrite handle_speakReplyTranslated, Hs, andb_false_r. reflexivity.
  - intros Hs Hb Hw.
    assert (Hp : replyPanelShown (view w) = true)
      by (unfold replyPanelShown; rewrite truthy_trim, Hb; reflexivity).
    split.
    + apply dispatch_same.
      rewrite handle_speakReply, Hp, Hs, (truthy_nonblank _ Hb).
      apply speakText_spec. exact Hw.
    + intros Ht. apply dispatch_same.
      rewrite handle_speakReplyTranslated, Hp, Hs, Ht.
      apply speakText_spec. exact Hw.
  - intros Hs Hb Hw.
    assert (Hp : replyPanelShown (view w) = true)
      by (unfold replyPanelShown; rewrite truthy_trim, Hb; reflexivity).
    apply dispatch_unwatched; try reflexivity.
    rewrite handle_speakReply, Hp, Hs, (truthy_nonblank _ Hb).
    unfold speakText. simpl. unfold mbind. simpl. rewrite Hw. reflexivity.
Qed.

Lemma play_buttons_witness :
  (dispatch ClickSpeakReply speakingWorld = Normal tt speakingWorld []
   /\ dispatch ClickSpeakReplyTranslated speakingWorld
      = Normal tt speakingWorld [])
  /\ (dispatch ClickSpeakReply repliedWorld
      = Normal tt repliedWorld
          [SynthCancel;
           SynthSpeak (newUtterance (js "Hello") (js "en"))]
      /\ dispatch ClickSpeakReplyTranslated repliedWorld
         = Normal tt repliedWorld
             [SynthCancel;
              SynthSpeak (newUtterance thaiText (js "th"))])
  /\ exists rd : bool,
       dispatch ClickSpeakReply silentWorld
       = Normal tt
           (mkWorld
              (withError
                 (js "Text-to-speech is not supported in this browser.")
                 (view silentWorld))
              (recognitionRef silentWorld) (window silentWorld) rd) [].
Proof.
  split; [|split].
  - apply (proj1 (play_buttons speakingWorld)). reflexivity.
  - split.
    + apply (proj1 (proj2 (play_buttons repliedWorld))); reflexivity.
    + apply (proj1 (proj2 (play_buttons repliedWorld))); reflexivity.
  - apply (proj2 (proj2 (play_buttons silentWorld))); reflexivity.
Defined.

Lemma copyToClipboard_cases (text : JsString) (w : World) :
  copyToClipboard text w
  = Normal tt w
      (if navigatorClipboard (window w) then [ClipboardWrite text]
       else [ConsoleError (js "Failed to copy text:")]).
Proof.
  unfold copyToClipboard, clipboardWriteText. simpl.
  unfold tryCatch, mbind, getWindow. simpl.
  destruct (navigatorClipboard (window w)); reflexivity.
Qed.

Lemma handle_copy (slot : TextSlot) (w : World) :
  handle (ClickCopy slot) w
  = Normal tt w
      (if copyButtonShown slot (view w) then
         if navigatorClipboard (window w)
         then [ClipboardWrite (slotText slot (view w))]
         else [ConsoleError (js "Failed to copy text:")]
       else []).
Proof.
  unfold handle, bind, Monad_M, mbind, getView, getRef, getRecordDisabled.
  cbv beta iota. rewrite !after_nil.
  destruct slot; cbn [slotText copyButtonShown];
    match goal with
    | |- (if ?c then _ else _) _ = _ =>
        destruct c; [apply copyToClipboard_cases|reflexivity]
    end.
Qed.

(** X13. A click on a copy button changes no state. Where the button is
    rendered (its text is not empty and, for the two texts of the reply
    panel, the panel is shown) and the browser has [navigator.clipboard],
    the click writes exactly the present text of its slot, once; where
    [navigator.clipboard] is missing nothing is written and the failure is
    logged at once; a button that is not rendered does nothing. A
    clipboard write that is rejected later is only logged: the state, the
    diagnostic included, stays as it was. *)
Theorem copy_buttons :
  forall (w : World) (slot : TextSlot),
    dispatch (ClickCopy slot) w
    = Normal tt w
        (if copyButtonShown slot (view w) then
           if navigatorClipboard (window w)
           then [ClipboardWrite (slotText slot (view w))]
           else [ConsoleError (js "Failed to copy text:")]
         else [])
    /\ dispatch ClipboardRejected w
       = Normal tt w [ConsoleError (js "Failed to copy text:")].
Proof.
  intros w slot. split; apply dispatch_same.
  - apply handle_copy.
  - reflexivity.
Qed.

(** The copy buttons of the transcript and of the reply's translation, on
    a secure page and on an insecure one. *)
Example scenario_copy :
  callsOf (run [ClickCopy OriginalSlot; ClickCopy ReplyTranslatedSlot]
             repliedWorld)
  = [ClipboardWrite thaiText; ClipboardWrite thaiText]
  /\ callsOf (run [ClickCopy OriginalSlot] insecureWorld)
     = [ConsoleError (js "Failed to copy text:")]
  /\ callsOf (run [ClickCopy TranslatedSlot] idleWorld) = [].
Proof. repeat split. Qed.

(** ** The result listener at its bounds *)

Lemma batch_resumed (pre rs : list SpeechRecognitionResult) :
  batch {| results := pre ++ rs; resultIndex := List.length pre |} = rs.
Proof.
  unfold batch. cbn [results resultIndex].
  rewrite skipn_app, skipn_all, Nat.sub_diag. reflexivity.
Qed.

(** X14. The result listener reads the results from the resume index on
    and nothing before it: an event that resumes after a prefix of earlier
    results acts exactly like an event that carries only the results after
    that prefix, so text committed by an earlier event is not appended
    again. With a resume index at or beyond the end of the result list the
    listener only empties the interim text. *)
Theorem result_listener_resumes :
  forall (w : World) (pre rs : list SpeechRecognitionResult)
         (event : SpeechRecognitionEvent),
    onResult {| results := pre ++ rs; resultIndex := List.length pre |} w
    = onResult {| results := rs; resultIndex := 0 |} w
    /\ ((List.length (results event) <= resultIndex event)%nat ->
        onResult event w
        = Normal tt (setView (withInterimText (js "") (view w)) w) []).
Proof.
  intros w pre rs event. split.
  - rewrite !onResult_spec. unfold finalText, interimSegmentsText.
    rewrite batch_resumed. reflexivity.
  - intros H. rewrite onResult_spec. unfold finalText, interimSegmentsText, batch.
    rewrite skipn_all2 by exact H. reflexivity.
Qed.

Lemma result_listener_resumes_witness :
  onResult {| results := [segment (js "old ") true; segment (js "new") true];
              resultIndex := 5 |} idleWorld
  = Normal tt (setView (withInterimText (js "") (view idleWorld)) idleWorld) [].
Proof.
  apply (proj2 (result_listener_resumes idleWorld [] []
                  {| results := [segment (js "old ") true;
                                 segment (js "new") true];
                     resultIndex := 5 |})).
  simpl. lia.
Defined.

Lemma jseqb_app_longer (a b : JsString) :
  truthy b = true -> jseqb a (a ++ b) = false.
Proof.
  intros H. induction a as [|c a IH]; simpl.
  - destruct b; [discriminate H|reflexivity].
  - rewrite N.eqb_refl. exact IH.
Qed.

Lemma viewEqb_originalText (a b : ViewState) :
  jseqb (originalText a) (originalText b) = false -> viewEqb a b = false.
Proof.
  intros H. unfold viewEqb. rewrite H.
  rewrite ?andb_false_r, ?andb_false_l. 
  destruct (Bool.eqb (isRecording a) (isRecording b)); reflexivity.
Qed.

(** X15. The forward translation is requested at most once per committed
    change of the transcript, never per interim event. A result event
    without final text replaces the interim text by the transcripts of its
    non-final segments, leaves everything else as it was and sends
    nothing. A result event with final text appends it to the transcript
    and empties the interim text; in the same dispatch, if the new
    transcript is blank nothing more happens; if it can be encoded exactly
    one request is sent, for the whole new transcript with the pair
    input|output, the busy flag is set and the diagnostic cleared; if
    [encodeURIComponent] throws no request is sent, the error is logged,
    the diagnostic is "Translation failed. Please try again." and the busy
    flag is clear. *)
Theorem translation_follows_final_text :
  forall (w : World) (event : SpeechRecognitionEvent),
    hasListener OnResult (recognitionRef w) = true ->
    (finalText event = js "" ->
     exists rd : bool,
       dispatch (RecognitionResult event) w
       = Normal tt
           (mkWorld (withInterimText (interimSegmentsText event) (view w))
              (recognitionRef w) (window w) rd) [])
    /\ (truthy (finalText event) = true ->
        let text := originalText (view w) ++ finalText event in
        let committed :=
          withInterimText (js "") (withOriginalText text (view w)) in
        exists rd : bool,
          dispatch (RecognitionResult event) w
          = if blank text then
              Normal tt
                (mkWorld committed (recognitionRef w) (window w) rd) []
            else
              match encodeURIComponent text with
              | Some q =>
                  Normal tt
                    (mkWorld
                       (withError (js "") (withIsTranslating true committed))
                       (recognitionRef w) (window w) rd)
                    [Fetch (js "https://api.mymemory.translated.net/get?q="
                            ++ q ++ js "&langpair=" ++ inputLanguage (view w)
                            ++ js "|" ++ outputLanguage (view w))]
              | None =>
                  Normal tt
                    (mkWorld
                       (withIsTranslating false
                          (withError
                             (js "Translation failed. Please try again.")
                             (withError (js "")
                                (withIsTranslating true committed))))
                       (recognitionRef w) (window w) rd)
                    [ConsoleError (js "Translation error:")]
              end).
Proof.
  intros w event H. split.
  - intros Hf. apply dispatch_unwatched; try reflexivity.
    rewrite (handle_result event w H), onResult_spec, Hf. reflexivity.
  - intros Ht. cbv zeta.
    rewrite dispatch_unfold, (handle_result event w H), onResult_spec, Ht.
    rewrite after_nil. cbn [view setView].
    rewrite viewEqb_originalText
      by (cbn [originalText withInterimText withOriginalText];
          apply jseqb_app_longer; exact Ht).
    rewrite runEffects_same_languages by reflexivity.
    unfold rendered.
    cbn [view setView recognitionRef window originalText agentReply
           withInterimText withOriginalText].
    rewrite (jseqb_app_longer _ _ Ht), jseqb_refl.
    rewrite originalTextWatcher_cases.
    cbn [view setView originalText inputLanguage outputLanguage
           withInterimText withOriginalText].
    unfold translationUrl.
    destruct (blank (originalText (view w) ++ finalText event));
      [|destruct (encodeURIComponent
                    (originalText (view w) ++ finalText event)) as [q|]];
      cbn [after app];
      match goal with
      | |- context [renderIfChanged ?old ?w0] =>
          destruct (renderIfChanged_spec old w0) as [rd ->]
      end;
      exists rd; reflexivity.
Qed.

Lemma translation_follows_final_text_witness :
  (exists rd : bool,
      dispatch (RecognitionResult
                  {| results := [segment (js "good mor") false];
                     resultIndex := 0 |}) idleWorld
      = Normal tt
          (mkWorld (withInterimText (js "good mor") (view idleWorld))
             (recognitionRef idleWorld) (window idleWorld) rd) [])
  /\ (exists rd : bool,
         dispatch (RecognitionResult thaiBatch) idleWorld
         = Normal tt
             (mkWorld
                (withError (js "")
                   (withIsTranslating true
                      (withInterimText (js "")
                         (withOriginalText thaiText (view idleWorld)))))
                (recognitionRef idleWorld) (window idleWorld) rd)
             [Fetch (js "https://api.mymemory.translated.net/get?q=%E0%B8%AA%E0%B8%A7%E0%B8%B1%E0%B8%AA%E0%B8%94%E0%B8%B5&langpair=th|en")])
  /\ exists rd : bool,
       dispatch (RecognitionResult
                   {| results := [segment (js " ") true]; resultIndex := 0 |})
         idleWorld
       = Normal tt
           (mkWorld
              (withInterimText (js "")
                 (withOriginalText (js " ") (view idleWorld)))
              (recognitionRef idleWorld) (window idleWorld) rd) [].
Proof.
  split; [|split].
  - apply (proj1 (translation_follows_final_text idleWorld
                    {| results := [segment (js "good mor") false];
                       resultIndex := 0 |} eq_refl)).
    reflexivity.
  - exact (proj2 (translation_follows_final_text idleWorld thaiBatch eq_refl)
             eq_refl).
  - exact (proj2 (translation_follows_final_text idleWorld
                    {| results := [segment (js " ") true]; resultIndex := 0 |}
                    eq_refl) eq_refl).
Defined.

(** ** The query component of a request *)

Lemma below_forallb (n : nat) (f : N -> bool) :
  forallb f (List.map N.of_nat (seq 0 n)) = true ->
  forall x : N, x < N.of_nat n -> f x = true.
Proof.
  intros H x Hx. rewrite forallb_forall in H. apply H.
  apply in_map_iff. exists (N.to_nat x). split.
  - apply N2Nat.id.
  - apply in_seq. lia.
Qed.

Lemma percentEscape_safe (octet : N) :
  octet < 256 -> forallb queryChar (percentEscape octet) = true.
Proof.
  intros H.
  apply (below_forallb 256 (fun o => forallb queryChar (percentEscape o)));
    [vm_compute; reflexivity | exact H].
Qed.

Lemma lor_below_256 (a b : N) : a < 256 -> b < 256 -> N.lor a b < 256.
Proof.
  intros Ha Hb.
  destruct (N.eq_dec (N.lor a b) 0) as [E|E]; [rewrite E; lia|].
  change 256 with (2 ^ 8). apply N.log2_lt_pow2; [lia|].
  rewrite N.log2_lor.
  assert (La : N.log2 a < 8).
  { destruct (N.eq_dec a 0) as [->|Na]; [reflexivity|].
    apply N.log2_lt_pow2; [lia|exact Ha]. }
  assert (Lb : N.log2 b < 8).
  { destruct (N.eq_dec b 0) as [->|Nb]; [reflexivity|].
    apply N.log2_lt_pow2; [lia|exact Hb]. }
  lia.
Qed.

Lemma land_63_below (x : N) : N.land x 0x3F < 64.
Proof.
  change 0x3F with (N.ones 6). rewrite N.land_ones.
  apply N.mod_lt. discriminate.
Qed.

Lemma shiftr_below (x k bound : N) :
  x < 2 ^ k * bound -> N.shiftr x k < bound.
Proof.
  intros H. rewrite N.shiftr_div_pow2.
  apply N.Div0.div_lt_upper_bound. exact H.
Qed.

Lemma utf8_octets (cp : N) :
  cp < 0x110000 -> Forall (fun octet => octet < 256) (utf8 cp).
Proof.
  intros H. unfold utf8.
  destruct (cp <? 0x80) eqn:E1; [apply N.ltb_lt in E1|].
  { repeat constructor. lia. }
  destruct (cp <? 0x800) eqn:E2; [apply N.ltb_lt in E2|].
  { repeat constructor; apply lor_below_256; try lia.
    - assert (N.shiftr cp 6 < 32) by (apply shiftr_below; simpl; lia). lia.
    - pose proof (land_63_below cp). lia. }
  destruct (cp <? 0x10000) eqn:E3; [apply N.ltb_lt in E3|].
  { repeat constructor; apply lor_below_256; try lia.
    - assert (N.shiftr cp 12 < 16) by (apply shiftr_below; simpl; lia). lia.
    - pose proof (land_63_below (N.shiftr cp 6)). lia.
    - pose proof (land_63_below cp). lia. }
  repeat constructor; apply lor_below_256; try lia.
  - assert (N.shiftr cp 18 < 8) by (apply shiftr_below; simpl; lia). lia.
  - pose proof (land_63_below (N.shiftr cp 12)). lia.
  - pose proof (land_63_below (N.shiftr cp 6)). lia.
  - pose proof (land_63_below cp). lia.
Qed.

Lemma percentEscapes_safe (l : list N) :
  Forall (fun octet => octet < 256) l ->
  forallb queryChar (flat_map percentEscape l) = true.
Proof.
  induction 1 as [|octet l Hoct _ IH]; [reflexivity|].
  cbn [flat_map]. rewrite forallb_app, IH, andb_true_r.
  apply percentEscape_safe. exact Hoct.
Qed.

Lemma escapeCodePoint_safe (cp : N) :
  cp < 0x110000 -> forallb queryChar (escapeCodePoint cp) = true.
Proof.
  intros H. apply percentEscapes_safe. apply utf8_octets. exact H.
Qed.

Lemma encode_alphabet (n : nat) :
  forall s q : JsString,
    (List.length s <= n)%nat ->
    codeUnits s = true ->
    encodeURIComponent s = Some q ->
    forallb queryChar q = true.
Proof.
  induction n as [|n IH]; intros s q Hn Hc He.
  - destruct s; [|simpl in Hn; lia]. simpl in He. injection He as <-.
    reflexivity.
  - destruct s as [|c rest]; [simpl in He; injection He as <-; reflexivity|].
    simpl in Hn. cbn [codeUnits forallb] in Hc.
    apply andb_true_iff in Hc. destruct Hc as [Hcu Hc].
    apply N.ltb_lt in Hcu.
    cbn [encodeURIComponent] in He.
    destruct (uriUnreserved c) eqn:Eu.
    { destruct (encodeURIComponent rest) as [q'|] eqn:Er; [|discriminate He].
      injection He as <-. cbn [forallb]. unfold queryChar at 1. rewrite Eu.
      apply (IH rest q'); [lia|exact Hc|exact Er]. }
    destruct (isLeadSurrogate c) eqn:El.
    { destruct rest as [|d rest']; [discriminate He|].
      destruct (isTrailSurrogate d) eqn:Et; [|discriminate He].
      destruct (encodeURIComponent rest') as [q'|] eqn:Er; [|discriminate He].
      injection He as <-. rewrite forallb_app.
      cbn [codeUnits forallb] in Hc. apply andb_true_iff in Hc.
      destruct Hc as [_ Hc]. simpl in Hn.
      rewrite (IH rest' q') by (try lia; assumption).
      rewrite andb_true_r. apply escapeCodePoint_safe.
      unfold isLeadSurrogate in El. unfold isTrailSurrogate in Et.
      apply andb_true_iff in El. apply andb_true_iff in Et.
      destruct El as [L1 L2]. destruct Et as [T1 T2].
      apply N.leb_le in L1, L2, T1, T2. lia. }
    destruct (isTrailSurrogate c) eqn:Et; [discriminate He|].
    destruct (encodeURIComponent rest) as [q'|] eqn:Er; [|discriminate He].
    injection He as <-. rewrite forallb_app.
    rewrite (IH rest q') by (try lia; assumption).
    rewrite andb_true_r. apply escapeCodePoint_safe. lia.
Qed.

Lemma encode_unreserved (s : JsString) :
  forallb uriUnreserved s = true -> encodeURIComponent s = Some s.
Proof.
  induction s as [|c s IH]; intros H; [reflexivity|].
  cbn [forallb] in H. apply andb_true_iff in H. destruct H as [Hc Hs].
  cbn [encodeURIComponent]. rewrite Hc, (IH Hs). reflexivity.
Qed.

(** X16. The text of a request is the only part of the URL that is
    encoded, and its encoding is made of unreserved characters and
    percent signs alone: it holds no ampersand, equals sign, vertical
    bar, hash or space, so the text cannot add or change a parameter of
    the request. A text of letters, digits and the marks [-_.!~*'()] goes
    into the URL unchanged. *)
Theorem request_query_is_safe :
  forall (text source target url : JsString),
    codeUnits text = true ->
    translationUrl text source target = Some url ->
    exists q : JsString,
      url = js "https://api.mymemory.translated.net/get?q=" ++ q
            ++ js "&langpair=" ++ source ++ js "|" ++ target
      /\ encodeURIComponent text = Some q
      /\ forallb queryChar q = true
      /\ ~ In 0x26 q /\ ~ In 0x3D q /\ ~ In 0x7C q /\ ~ In 0x23 q
      /\ ~ In 0x20 q
      /\ (forallb uriUnreserved text = true -> q = text).
Proof.
  intros text source target url Hc Hu. unfold translationUrl in Hu.
  destruct (encodeURIComponent text) as [q|] eqn:Eq; [|discriminate Hu].
  injection Hu as <-. exists q.
  pose proof (encode_alphabet (List.length text) text q (le_n _) Hc Eq) as Ha.
  assert (Hnot : forall c, queryChar c = false -> ~ In c q).
  { intros c Hq Hin. rewrite forallb_forall in Ha.
    rewrite (Ha c Hin) in Hq. discriminate Hq. }
  repeat split; try (apply Hnot; reflexivity); try assumption.
  intros Hun. rewrite (encode_unreserved text Hun) in Eq. congruence.
Qed.

Lemma request_query_is_safe_witness :
  exists q : JsString,
    js "https://api.mymemory.translated.net/get?q=a%26langpair%3Den%7Cfr%23&langpair=th|en"
    = js "https://api.mymemory.translated.net/get?q=" ++ q
      ++ js "&langpair=" ++ js "th" ++ js "|" ++ js "en"
    /\ encodeURIComponent (js "a&langpair=en|fr#") = Some q
    /\ forallb queryChar q = true
    /\ ~ In 0x26 q /\ ~ In 0x3D q /\ ~ In 0x7C q /\ ~ In 0x23 q
    /\ ~ In 0x20 q
    /\ (forallb uriUnreserved (js "a&langpair=en|fr#") = true
        -> q = js "a&langpair=en|fr#").
Proof.
  apply (request_query_is_safe (js "a&langpair=en|fr#") (js "th") (js "en"));
    reflexivity.
Defined.

Lemma unreserved_not_surrogate (c : N) :
  uriUnreserved c = true ->
  isLeadSurrogate c = false /\ isTrailSurrogate c = false.
Proof.
  intros H.
  assert (Hc : c < 0x80).
  { unfold uriUnreserved in H.
    repeat (apply orb_true_iff in H; destruct H as [H|H]);
      repeat (apply andb_true_iff in H; destruct H as [? H]);
      repeat match goal with
             | X : (_ <=? _) = true |- _ => apply N.leb_le in X
             | X : (_ =? _) = true |- _ => apply N.eqb_eq in X
             end; lia. }
  unfold isLeadSurrogate, isTrailSurrogate.
  split; apply andb_false_iff; left; apply N.leb_gt; lia.
Qed.

Lemma encode_wellFormed (n : nat) :
  forall s : JsString,
    (List.length s <= n)%nat ->
    match encodeURIComponent s with
    | Some _ => true
    | None => false
    end = wellFormed s.
Proof.
  induction n as [|n IH]; intros s Hn.
  - destruct s; [reflexivity|simpl in Hn; lia].
  - destruct s as [|c rest]; [reflexivity|]. simpl in Hn.
    cbn [encodeURIComponent wellFormed].
    destruct (uriUnreserved c) eqn:Eu.
    { destruct (unreserved_not_surrogate c Eu) as [-> ->].
      rewrite <- (IH rest) by lia.
      destruct (encodeURIComponent rest); reflexivity. }
    destruct (isLeadSurrogate c).
    { destruct rest as [|d rest']; [reflexivity|].
      destruct (isTrailSurrogate d); [|reflexivity].
      simpl in Hn. rewrite <- (IH rest') by lia.
      destruct (encodeURIComponent rest'); reflexivity. }
    destruct (isTrailSurrogate c); [reflexivity|].
    rewrite <- (IH rest) by lia.
    destruct (encodeURIComponent rest); reflexivity.
Qed.

(** X17. The text of a request can be encoded exactly when it holds no
    unpaired surrogate. A translate operation called on non-blank text
    with an unpaired surrogate therefore sends no request: it ends at once
    in its failure path, with its diagnostic set and its busy flag
    clear. *)
Theorem ill_formed_text_sends_nothing :
  forall w : World,
    ((exists q : JsString,
         encodeURIComponent (originalText (view w)) = Some q)
     <-> wellFormed (originalText (view w)) = true)
    /\ (blank (originalText (view w)) = false ->
        wellFormed (originalText (view w)) = false ->
        translateText w
        = Normal Returned
            (setView
               (withIsTranslating false
                  (withError (js "Translation failed. Please try again.")
                     (view w))) w)
            [ConsoleError (js "Translation error:")])
    /\ (blank (agentReply (view w)) = false ->
        wellFormed (agentReply (view w)) = false ->
        translateAgentReply w
        = Normal Returned
            (setView
               (withIsTranslatingReply false
                  (withError
                     (js "Agent reply translation failed. Please try again.")
                     (view w))) w)
            [ConsoleError (js "Translation error:")]).
Proof.
  intros w. split; [|split].
  - pose proof (encode_wellFormed _ (originalText (view w)) (le_n _)) as H.
    destruct (encodeURIComponent (originalText (view w))) as [q|].
    + split; [intros _; symmetry; exact H | intros _; exists q; reflexivity].
    + split; [intros [q Hq]; discriminate Hq | intros Hw; congruence].
  - intros Hb Hw. rewrite (translateText_nonblank w Hb).
    pose proof (encode_wellFormed _ (originalText (view w)) (le_n _)) as H.
    unfold translationUrl.
    destruct (encodeURIComponent (originalText (view w))); [congruence|].
    reflexivity.
  - intros Hb Hw. rewrite (translateAgentReply_nonblank w Hb).
    pose proof (encode_wellFormed _ (agentReply (view w)) (le_n _)) as H.
    unfold translationUrl.
    destruct (encodeURIComponent (agentReply (view w))); [congruence|].
    reflexivity.
Qed.

Lemma ill_formed_text_sends_nothing_witness :
  translateText loneSurrogateWorld
  = Normal Returned
      (setView
         (withIsTranslating false
            (withError (js "Translation failed. Please try again.")
               (view loneSurrogateWorld))) loneSurrogateWorld)
      [ConsoleError (js "Translation error:")]
  /\ translateAgentReply loneSurrogateWorld
     = Normal Returned
         (setView
            (withIsTranslatingReply false
               (withError
                  (js "Agent reply translation failed. Please try again.")
                  (view loneSurrogateWorld))) loneSurrogateWorld)
         [ConsoleError (js "Translation error:")].
Proof.
  split.
  - apply (proj1 (proj2 (ill_formed_text_sends_nothing loneSurrogateWorld)));
      reflexivity.
  - apply (proj2 (proj2 (ill_formed_text_sends_nothing loneSurrogateWorld)));
      reflexivity.
Defined.

(** ** The language tables *)

(** X18. The two language tables agree: every code the selects offer has a
    display name and an entry in the table of speech locales, so the
    fallback locale is never used for a selectable language; the locale of
    a code starts with that code and a hyphen. The initial selections,
    [th] and [en], are among the codes offered. *)
Theorem every_language_has_a_locale :
  forall code fallback : JsString,
    In code languageCodes ->
    (exists name : JsString,
        languageName code = Some name /\ truthy name = true)
    /\ (exists locale : JsString,
           speechLanguageCode code = Some locale
           /\ speechLocale code fallback = locale
           /\ firstn 3 locale = code ++ js "-"
           /\ List.length locale = 5%nat)
    /\ In (inputLanguage initialView) languageCodes
    /\ In (outputLanguage initialView) languageCodes.
Proof.
  intros code fallback H.
  unfold languageCodes, languages in H. cbn [List.map fst] in H.
  repeat (destruct H as [<-|H];
          [split; [eexists; split; reflexivity|];
           split; [eexists; repeat split; reflexivity|];
           split; [right; left; reflexivity | left; reflexivity]|]).
  destruct H.
Qed.

Lemma every_language_has_a_locale_witness :
  (exists name : JsString,
      languageName (js "zh") = Some name /\ truthy name = true)
  /\ (exists locale : JsString,
         speechLanguageCode (js "zh") = Some locale
         /\ speechLocale (js "zh") (js "en-US") = locale
         /\ firstn 3 locale = js "zh" ++ js "-"
         /\ List.length locale = 5%nat)
  /\ In (inputLanguage initialView) languageCodes
  /\ In (outputLanguage initialView) languageCodes.
Proof.
  apply (every_language_has_a_locale (js "zh") (js "en-US")).
  do 10 right. left. reflexivity.
Defined.

(** ** Updates that change nothing *)

(** X19. Selecting the language that is already selected, or setting the
    reply text to the value it holds, changes nothing and sets off
    nothing: no render, no effect, no request, and the recognition object
    is not replaced. *)
Theorem unchanged_selection_is_noop :
  forall w : World,
    dispatch (SelectInputLanguage (inputLanguage (view w))) w = Normal tt w []
    /\ dispatch (SelectOutputLanguage (outputLanguage (view w))) w
       = Normal tt w []
    /\ dispatch (TypeAgentReply (agentReply (view w))) w = Normal tt w [].
Proof.
  intros w. repeat split; apply dispatch_same.
  - transitivity
      (Normal tt (setView (withInputLanguage (inputLanguage (view w)) (view w)) w)
         (@nil Effect)); [reflexivity|].
    destruct w as [[] ? ? ?]; reflexivity.
  - transitivity
      (Normal tt
         (setView (withOutputLanguage (outputLanguage (view w)) (view w)) w)
         (@nil Effect)); [reflexivity|].
    destruct w as [[] ? ? ?]; reflexivity.
  - transitivity
      (Normal tt (setView (withAgentReply (agentReply (view w)) (view w)) w)
         (@nil Effect)); [reflexivity|].
    destruct w as [[] ? ? ?]; reflexivity.
Qed.
